(** * yutto launcher: a shallow embedding of [main.py]

    [main.py] holds one function, [download_bilibili_video], which turns a
    URL and keyword options into an argument list for [python -m yutto],
    makes sure the download directory exists, runs the tool as a child
    process and prints whether it succeeded.

    The embedding follows the source statement by statement:
    - keyword values are a small universe of Python values ([pyval]) with
      their truthiness and [str()];
    - [**kwargs] is an insertion-ordered association list with first-match
      lookup, so that the order in which the caller wrote the keys is part
      of the input;
    - the command list is built by the same sequence of [append]/[extend]
      updates as in the source;
    - the effects (directory creation, [print], [subprocess.run]) are
      threaded through a state-and-exception monad over a [World]. *)

From stdpp Require Import gmap strings list fin_maps.
From Stdlib Require Import ZArith Ascii DecimalString DecimalPos DecimalZ.

(** ** Python values *)

Module Py.

(** The values a caller passes for the documented options, [None], [bool],
    [int] and [str]; any other object is given by what [bool()] and [str()]
    make of it. *)
Inductive pyval : Type :=
  | PyNone
  | PyBool (b : bool)
  | PyInt (z : Z)
  | PyStr (s : string)
  | PyObject (truth : bool) (text : string).

#[global] Instance pyval_eq_dec : EqDecision pyval.
Proof. solve_decision. Defined.

(** [x is None] *)
Definition is_None (v : pyval) : bool :=
  match v with PyNone => true | _ => false end.

(** [bool(x)]: the test an [if x:] performs. *)
Definition truthy (v : pyval) : bool :=
  match v with
  | PyNone => false
  | PyBool b => b
  | PyInt z => negb (z =? 0)%Z
  | PyStr s => negb (bool_decide (s = ""))
  | PyObject truth _ => truth
  end.

(** [str(x)]; integers print in decimal with a leading [-] when negative. *)
Definition str (v : pyval) : string :=
  match v with
  | PyNone => "None"
  | PyBool true => "True"
  | PyBool false => "False"
  | PyInt z => NilZero.string_of_int (Z.to_int z)
  | PyStr s => s
  | PyObject _ text => text
  end.

(** [sep.join(l)] *)
Fixpoint join (sep : string) (l : list string) : string :=
  match l with
  | [] => ""
  | [x] => x
  | x :: rest => x +:+ sep +:+ join sep rest
  end.

(** A [dict] with string keys: bindings in insertion order.  Python keeps
    one binding per key, which is the [NoDup] side condition [dict_wf]. *)
Abbreviation dict := (list (string * pyval)).

Definition dict_wf (d : dict) : Prop := NoDup d.*1.

(** [d.get(k)] as an option; [k in d] is [is_Some], [d[k]] its content. *)
Fixpoint dict_lookup (d : dict) (k : string) : option pyval :=
  match d with
  | [] => None
  | (k', v) :: rest => if decide (k' = k) then Some v else dict_lookup rest k
  end.

(** [d.get(k, dflt)] *)
Definition dict_get (d : dict) (k : string) (dflt : pyval) : pyval :=
  default dflt (dict_lookup d k).

(** [l.append(x)] and [l.extend(xs)] on a list that is rebound. *)
Definition list_append {A} (l : list A) (x : A) : list A := l ++ [x].
Definition list_extend {A} (l xs : list A) : list A := l ++ xs.

End Py.
Import Py.

(** ** Command construction (main.py, lines 96-128) *)

(** [param_mapping]: a dict literal, iterated by [.items()] in the order
    it is written. *)
Definition param_mapping : list (string * string) :=
  [ ("video_quality", "--video-quality");
    ("audio_quality", "--audio-quality");
    ("num_workers", "--num-workers");
    ("danmaku_format", "--danmaku-format");
    ("proxy", "--proxy");
    ("sessdata", "--sessdata");
    ("vcodec", "--vcodec");
    ("acodec", "--acodec") ].

(** Body of [for param, cmd_param in param_mapping.items()]. *)
Definition add_param (kwargs : dict) (cmd : list string)
    (item : string * string) : list string :=
  let '(param, cmd_param) := item in
  match dict_lookup kwargs param with
  | Some v =>
      if is_None v then cmd
      else list_append (list_append cmd cmd_param) (str v)
  | None => cmd
  end.

(** [if episodes:] on an [Optional[str]]. *)
Definition episodes_truthy (episodes : option string) : bool :=
  match episodes with
  | None => false
  | Some e => negb (bool_decide (e = ""))
  end.

(** The list [cmd] as it stands after line 128. *)
Definition build_cmd (python_exe url output_dir : string) (batch : bool)
    (episodes : option string) (kwargs : dict) : list string :=
  let cmd := [python_exe; "-m"; "yutto"; url; "--dir"; output_dir] in
  let cmd := if batch then list_append cmd "--batch" else cmd in
  let cmd :=
    match episodes with
    | Some e =>
        if episodes_truthy episodes
        then list_extend cmd ["--episodes"; e] else cmd
    | None => cmd
    end in
  let cmd := fold_left (add_param kwargs) param_mapping cmd in
  let cmd :=
    if truthy (dict_get kwargs "overwrite" (PyBool false))
    then list_append cmd "--overwrite" else cmd in
  cmd.

(** ** The world the launcher runs in *)

Module Os.

(** The [OSError] subclasses that directory creation and process launch
    raise.  [except FileNotFoundError] selects the first; [except OSError]
    accepts all of them. *)
Inductive exn : Type :=
  | FileNotFoundError
  | FileExistsError
  | NotADirectoryError
  | PermissionError.

#[global] Instance exn_eq_dec : EqDecision exn.
Proof. solve_decision. Defined.

Inductive result (A : Type) : Type :=
  | Returned (a : A)
  | Raised (e : exn).
Arguments Returned {A} a.
Arguments Raised {A} e.

(** *** Paths and the file system *)

(** [pathlib] and the file system belong to Python and the operating
    system, not to [main.py]; they are modelled as far as
    [Path(output_dir).mkdir(parents=True, exist_ok=True)] needs: a tree of
    directories and regular files, POSIX path syntax, no permissions. *)
Inductive node : Type := Dir | File.

#[global] Instance node_eq_dec : EqDecision node.
Proof. solve_decision. Defined.

(** A path is its list of components, innermost first: the parent of a
    path is its tail.  Components are opaque names ([".."] is not
    resolved). *)
Abbreviation path := (list string).

(** Splitting on ['/']; [cur] is the component being read. *)
Fixpoint split_slash (s cur : string) : list string :=
  match s with
  | EmptyString => [cur]
  | String c s' =>
      if Ascii.eqb c "/"%char then cur :: split_slash s' ""
      else split_slash s' (cur +:+ String c "")
  end.

(** [pathlib.PurePosixPath(s).parts]: the anchor ["/"] of an absolute
    path, then the components that are neither empty nor ["."]. *)
Definition parts (s : string) : list string :=
  (match s with
   | String c _ => if Ascii.eqb c "/"%char then ["/"] else []
   | EmptyString => []
   end)
  ++ filter (λ c, c ≠ "" ∧ c ≠ ".") (split_slash s "").

(** [Path(s)] *)
Definition Path (s : string) : path := rev (parts s).

(** The current directory (no component) and the root always exist. *)
Definition is_anchor (p : path) : bool :=
  bool_decide (p = [] ∨ p = ["/"]).

Definition node_at (fs : gmap path node) (p : path) : option node :=
  if is_anchor p then Some Dir else fs !! p.

(** [p.is_dir()] *)
Definition is_dir (fs : gmap path node) (p : path) : bool :=
  bool_decide (node_at fs p = Some Dir).

(** [os.mkdir(p)]: fails when [p] exists, when its parent is missing and
    when its parent is not a directory. *)
Definition os_mkdir (fs : gmap path node) (p : path)
    : result (gmap path node) :=
  match node_at fs p with
  | Some _ => Raised FileExistsError
  | None =>
      match node_at fs (tail p) with
      | None => Raised FileNotFoundError
      | Some File => Raised NotADirectoryError
      | Some Dir => Returned (<[p := Dir]> fs)
      end
  end.

(** [Path.mkdir(parents=False, exist_ok=True)]:
    [FileNotFoundError] is re-raised, any other [OSError] is swallowed
    when the path is a directory. *)
Definition mkdir_exist_ok (fs : gmap path node) (p : path)
    : result (gmap path node) :=
  match os_mkdir fs p with
  | Returned fs' => Returned fs'
  | Raised FileNotFoundError => Raised FileNotFoundError
  | Raised e => if is_dir fs p then Returned fs else Raised e
  end.

(** [Path.mkdir(parents=True, exist_ok=True)] as pathlib writes it: try
    [os.mkdir]; on [FileNotFoundError] make the parent (unless the path is
    its own parent) and try once more without [parents]; on any other
    [OSError] succeed only if the path is a directory. *)
Fixpoint mkdir_parents (fs : gmap path node) (p : path)
    : result (gmap path node) :=
  match os_mkdir fs p with
  | Returned fs' => Returned fs'
  | Raised FileNotFoundError =>
      match p with
      | [] => Raised FileNotFoundError
      | _ :: parent =>
          match mkdir_parents fs parent with
          | Returned fs1 => mkdir_exist_ok fs1 p
          | Raised e => Raised e
          end
      end
  | Raised e => if is_dir fs p then Returned fs else Raised e
  end.

(** *** Processes and output *)

(** [sys.executable], the module-level [src_path] (as [str(src_path)]) and
    [os.environ] are read from the world; [print] and [subprocess.run]
    leave their mark in its trace. *)

(** What [subprocess.run] does with a command and an environment in a
    given file system: the child cannot be started, or it runs to an exit
    status and leaves a file system behind. *)
Inductive spawn_result : Type :=
  | LaunchError (e : exn)
  | Exited (returncode : Z) (fs' : gmap path node).

(** What an observer sees, in order: a [print] call with its text, a child
    process with its argument list and environment. *)
Inductive event : Type :=
  | Printed (line : string)
  | Spawned (cmd : list string) (env : gmap string string).

Record World : Type := mkWorld {
  sys_executable : string;
  src_path : string;
  os_environ : gmap string string;
  fs : gmap path node;
  trace : list event;
  child : list string → gmap string string → gmap path node → spawn_result
}.

Definition set_fs (fs' : gmap path node) (w : World) : World :=
  mkWorld (sys_executable w) (src_path w) (os_environ w) fs' (trace w)
    (child w).

Definition log (e : event) (w : World) : World :=
  mkWorld (sys_executable w) (src_path w) (os_environ w) (fs w)
    (trace w ++ [e]) (child w).

(** *** The monad: state [World], exceptions [exn] *)

Definition M (A : Type) : Type := World → result A * World.

Definition ret {A} (a : A) : M A := λ w, (Returned a, w).

Definition bind {A B} (m : M A) (k : A → M B) : M B :=
  λ w, match m w with
       | (Returned a, w') => k a w'
       | (Raised e, w') => (Raised e, w')
       end.

Definition gets {A} (f : World → A) : M A := λ w, (Returned (f w), w).

Definition modify (f : World → World) : M unit := λ w, (Returned tt, f w).

#[global] Instance M_ret : MRet M := @ret.
#[global] Instance M_bind : MBind M := λ A B k m, bind m k.

(** [print(s)] *)
Definition print (s : string) : M unit := modify (log (Printed s)).

(** [Path(...).mkdir(parents=True, exist_ok=True)] *)
Definition Path_mkdir (p : path) : M unit :=
  λ w, match mkdir_parents (fs w) p with
       | Returned fs' => (Returned tt, set_fs fs' w)
       | Raised e => (Raised e, w)
       end.

(** [subprocess.run(cmd, env=env).returncode] *)
Definition subprocess_run (cmd : list string) (env : gmap string string)
    : M Z :=
  λ w, let w := log (Spawned cmd env) w in
       match child w cmd env (fs w) with
       | LaunchError e => (Raised e, w)
       | Exited returncode fs' => (Returned returncode, set_fs fs' w)
       end.

End Os.
Import Os.

(** ** The launcher (main.py, lines 11-149) *)

Definition download_bilibili_video (url output_dir : string) (batch : bool)
    (episodes : option string) (kwargs : dict) : M unit :=
  Path_mkdir (Path output_dir) ;;
  python_exe ← gets sys_executable ;
  let cmd := build_cmd python_exe url output_dir batch episodes kwargs in
  print ("开始下载: " +:+ url) ;;
  print ("下载目录: " +:+ output_dir) ;;
  print ("批量模式: " +:+ (if batch then "启用" else "禁用")) ;;
  match episodes with
  | Some e =>
      if episodes_truthy episodes then print ("选集范围: " +:+ e)
      else mret tt
  | None => mret tt
  end ;;
  print ("执行命令: " +:+ join " " cmd) ;;
  environ ← gets os_environ ;
  src ← gets src_path ;
  let env :=
    <["PYTHONPATH" := src +:+ ";" +:+ default "" (environ !! "PYTHONPATH")]>
      environ in
  returncode ← subprocess_run cmd env ;
  if (returncode =? 0)%Z then print "下载完成!"
  else print ("下载失败，返回码: " +:+ str (PyInt returncode)).

(** The defaults of the signature. *)
Definition default_output_dir : string := "./downloads".
Definition default_batch : bool := false.
Definition default_episodes : option string := None.

(** ** Reading the command as a concatenation *)

(** The sections of the argument list, in the words of the interface
    description: the base invocation, the batch flag, the episode
    selection, one pair per mapped option, the overwrite flag. *)
Definition base_tokens (python_exe url output_dir : string) : list string :=
  [python_exe; "-m"; "yutto"; url; "--dir"; output_dir].

Definition batch_tokens (batch : bool) : list string :=
  if batch then ["--batch"] else [].

Definition episodes_tokens (episodes : option string) : list string :=
  match episodes with
  | Some e => if bool_decide (e = "") then [] else ["--episodes"; e]
  | None => []
  end.

Definition option_tokens (kwargs : dict) (item : string * string)
    : list string :=
  match dict_lookup kwargs item.1 with
  | Some PyNone | None => []
  | Some v => [item.2; str v]
  end.

Definition overwrite_tokens (kwargs : dict) : list string :=
  if truthy (dict_get kwargs "overwrite" (PyBool false))
  then ["--overwrite"] else [].

(** The keys the builder looks at. *)
Definition recognized : list string :=
  param_mapping.*1 ++ ["overwrite"].

(** The number of times a token occurs in a command. *)
Definition occurrences (tok : string) (cmd : list string) : nat :=
  length (filter (λ t, t = tok) cmd).

(** [--<flag-name>] for an option name: underscores become hyphens. *)
Fixpoint hyphenate (s : string) : string :=
  match s with
  | EmptyString => EmptyString
  | String c s' =>
      String (if Ascii.eqb c "_"%char then "-"%char else c) (hyphenate s')
  end.

Definition flag_name (param : string) : string := "--" +:+ hyphenate param.

(** [tok] is a substring of [s]. *)
Definition substring_of (tok s : string) : Prop :=
  ∃ pre post, s = pre +:+ tok +:+ post.

(** The keyword arguments with one key taken out. *)
Definition dict_remove (k : string) (d : dict) : dict :=
  filter (λ kv, kv.1 ≠ k) d.

(** No input other than the episode selection and the overwrite option
    brings the token [tok] into the command: it is not the interpreter
    path, the URL or the directory, and no mapped option prints as it. *)
Definition foreign (tok python_exe url output_dir : string) (kwargs : dict)
    : Prop :=
  tok ≠ python_exe ∧ tok ≠ url ∧ tok ≠ output_dir ∧
  ∀ param v, param ∈ param_mapping.*1 →
    dict_lookup kwargs param = Some v → str v ≠ tok.

(** The tokens the builder writes by itself, whatever the inputs,
    besides [--episodes] and [--overwrite]. *)
Definition fixed_tokens : list string :=
  ["-m"; "yutto"; "--dir"; "--batch"] ++ param_mapping.*2.

(** The child processes of a trace, in order. *)
Definition spawned (evs : list event)
    : list (list string * gmap string string) :=
  flat_map (λ ev, match ev with
                  | Spawned cmd env => [(cmd, env)]
                  | Printed _ => []
                  end) evs.

(** [int(s)] on a decimal numeral, [None] when [s] is not one. *)
Definition int_of_str (s : string) : option Z :=
  Z.of_int <$> NilZero.int_of_string s.

(** The construction order with the episode pair appended whenever a
    selection is supplied, empty or not. *)
Definition cmd_episodes_if_supplied (python_exe url output_dir : string)
    (batch : bool) (episodes : option string) (kwargs : dict)
    : list string :=
  base_tokens python_exe url output_dir
  ++ batch_tokens batch
  ++ match episodes with Some e => ["--episodes"; e] | None => [] end
  ++ flat_map (option_tokens kwargs) param_mapping
  ++ overwrite_tokens kwargs.

(** ** Reading a run as a trace *)

(** What is printed before the child starts. *)
Definition announce (url output_dir : string) (batch : bool)
    (episodes : option string) (cmd : list string) : list event :=
  [ Printed ("开始下载: " +:+ url);
    Printed ("下载目录: " +:+ output_dir);
    Printed ("批量模式: " +:+ (if batch then "启用" else "禁用")) ]
  ++ match episodes with
     | Some e => if bool_decide (e = "") then []
                 else [Printed ("选集范围: " +:+ e)]
     | None => []
     end
  ++ [Printed ("执行命令: " +:+ join " " cmd)].

(** The line that reports the exit status. *)
Definition verdict (returncode : Z) : string :=
  if (returncode =? 0)%Z then "下载完成!"
  else "下载失败，返回码: " +:+ str (PyInt returncode).

(** The environment handed to the child. *)
Definition child_env (w : World) : gmap string string :=
  <["PYTHONPATH" :=
      src_path w +:+ ";" +:+ default "" (os_environ w !! "PYTHONPATH")]>
    (os_environ w).

(** The world with another file system and a longer trace. *)
Definition advance (w : World) (fs' : gmap path node) (evs : list event)
    : World :=
  mkWorld (sys_executable w) (src_path w) (os_environ w) fs'
    (trace w ++ evs) (child w).

(** What a run comes to once the directory is made and the file system
    is [fs1]: the announcement, the child started in [fs1], and either the
    exception of a child that could not be started or the report of one
    that came to an end. *)
Definition run_from (fs1 : gmap path node) (url output_dir : string)
    (batch : bool) (episodes : option string) (kwargs : dict) (w : World)
    : result unit * World :=
  let cmd :=
    build_cmd (sys_executable w) url output_dir batch episodes kwargs in
  let evs :=
    announce url output_dir batch episodes cmd
    ++ [Spawned cmd (child_env w)] in
  match child w cmd (child_env w) fs1 with
  | LaunchError e => (Raised e, advance w fs1 evs)
  | Exited returncode fs2 =>
      (Returned tt, advance w fs2 (evs ++ [Printed (verdict returncode)]))
  end.

(** A world to run the examples in: an empty file system, one variable in
    the environment, and a child that always exits with [returncode]. *)
Definition sample_world (returncode : Z) : World :=
  mkWorld "python" "/app/src" {["HOME" := "/root"]} ∅ []
    (λ _ _ fs, Exited returncode fs).

(** A file system is well formed when whatever exists sits in a
    directory. *)
Definition fs_wf (fs : gmap path node) : Prop :=
  ∀ p n, node_at fs p = Some n → node_at fs (tail p) = Some Dir.

(** A directory can be made at [p]: no regular file is in the way, at [p]
    or above it. *)
Definition creatable (fs : gmap path node) (p : path) : Prop :=
  ∀ q, q `suffix_of` p → node_at fs q ≠ Some File.

(** ** The script (main.py, lines 151-171) *)

(** What [python main.py] runs: the one call left uncommented under
    [if __name__ == "__main__"], with [episodes] at its default. *)
Definition main : M unit :=
  download_bilibili_video
    "https://space.bilibili.com/20972760/favlist?fid=1645833860&ftype=create"
    "downloads/collection" true default_episodes
    [("video_quality", PyInt 80); ("audio_quality", PyInt 30280);
     ("num_workers", PyInt 8)].

(** ** Further vocabulary *)

(** A mapped option is supplied when its key is bound to something other
    than [None]. *)
Definition supplied (kwargs : dict) (item : string * string) : bool :=
  match dict_lookup kwargs item.1 with
  | Some v => negb (is_None v)
  | None => false
  end.

Definition supplied_count (kwargs : dict) : nat :=
  length (filter (λ item, supplied kwargs item = true) param_mapping).

(** [c in s] for a character. *)
Fixpoint contains_char (c : ascii) (s : string) : bool :=
  match s with
  | EmptyString => false
  | String c' s' => Ascii.eqb c' c || contains_char c s'
  end.

(** [s.split(c)] for a one-character separator; [cur] is the piece being
    read. *)
Fixpoint split_on (c : ascii) (s cur : string) : list string :=
  match s with
  | EmptyString => [cur]
  | String c' s' =>
      if Ascii.eqb c' c then cur :: split_on c s' ""
      else split_on c s' (cur +:+ String c' "")
  end.

(** ** Auxiliary results *)

(** *** The command as a concatenation *)

Section Shape.

Variables (python_exe url output_dir : string) (batch : bool).
Variable episodes : option string.

Lemma fold_add_param kwargs (items : list (string * string)) cmd :
  fold_left (add_param kwargs) items cmd
  = cmd ++ flat_map (option_tokens kwargs) items.
Proof.
  revert cmd. induction items as [|[param flag] items IH]; intros cmd; simpl.
  - by rewrite app_nil_r.
  - rewrite IH. unfold add_param, option_tokens, list_append. simpl.
    destruct (dict_lookup kwargs param) as [[]|]; simpl;
      by rewrite <- ?app_assoc.
Qed.

Lemma build_cmd_shape kwargs :
  build_cmd python_exe url output_dir batch episodes kwargs
  = base_tokens python_exe url output_dir
    ++ batch_tokens batch
    ++ episodes_tokens episodes
    ++ flat_map (option_tokens kwargs) param_mapping
    ++ overwrite_tokens kwargs.
Proof.
  unfold build_cmd. rewrite fold_add_param.
  unfold overwrite_tokens, episodes_tokens, batch_tokens, base_tokens,
    episodes_truthy, list_append, list_extend.
  destruct batch, episodes as [e|];
    try destruct (bool_decide (e = ""));
    destruct (truthy _); simpl; rewrite <- ?app_assoc; simpl;
    by rewrite ?app_nil_r.
Qed.

(** The option pairs only read the mapped keys. *)
Lemma mapped_ext kwargs kwargs' (items : list (string * string)) :
  (∀ k, k ∈ items.*1 → dict_lookup kwargs k = dict_lookup kwargs' k) →
  flat_map (option_tokens kwargs) items
  = flat_map (option_tokens kwargs') items.
Proof.
  induction items as [|[param flag] items IH]; intros Hext; [done|].
  simpl. f_equal.
  - unfold option_tokens. simpl. rewrite Hext; [done|].
    simpl. apply list_elem_of_here.
  - apply IH. intros k Hin. apply Hext. simpl. by apply list_elem_of_further.
Qed.

(** The command only reads the recognized keys of [kwargs]. *)
Lemma build_cmd_ext kwargs kwargs' :
  (∀ k, k ∈ recognized → dict_lookup kwargs k = dict_lookup kwargs' k) →
  build_cmd python_exe url output_dir batch episodes kwargs
  = build_cmd python_exe url output_dir batch episodes kwargs'.
Proof.
  intros Hext. rewrite !build_cmd_shape. do 3 f_equal. f_equal.
  - apply mapped_ext. intros k Hin. apply Hext.
    unfold recognized. apply elem_of_app. by left.
  - unfold overwrite_tokens, dict_get. rewrite Hext; [done|].
    unfold recognized. apply elem_of_app. right. apply list_elem_of_here.
Qed.

End Shape.

(** *** Token bookkeeping *)

Lemma occurrences_app tok (l1 l2 : list string) :
  occurrences tok (l1 ++ l2) = occurrences tok l1 + occurrences tok l2.
Proof. unfold occurrences. by rewrite filter_app, length_app. Qed.

Lemma occurrences_zero tok (l : list string) :
  tok ∉ l → occurrences tok l = 0.
Proof.
  unfold occurrences. induction l as [|t l IH]; intros Hnin; [done|].
  apply not_elem_of_cons in Hnin as [Hne Hnin].
  rewrite filter_cons_False by congruence. by apply IH.
Qed.

Lemma mapped_flag_names (item : string * string) :
  item ∈ param_mapping → item.2 = flag_name item.1.
Proof.
  unfold param_mapping. intros Hin.
  repeat (apply elem_of_cons in Hin as [->|Hin]; [reflexivity|]).
  by apply elem_of_nil in Hin.
Qed.

(** A token that is not a mapped flag and that no mapped value prints as
    does not occur among the option pairs. *)
Lemma mapped_tokens_foreign tok kwargs (items : list (string * string)) :
  (∀ it, it ∈ items → it.2 ≠ tok) →
  (∀ param v, param ∈ items.*1 →
     dict_lookup kwargs param = Some v → str v ≠ tok) →
  tok ∉ flat_map (option_tokens kwargs) items.
Proof.
  induction items as [|[param flag] items IH]; intros Hflag Hval; simpl.
  - apply not_elem_of_nil.
  - apply not_elem_of_app. split.
    + unfold option_tokens. simpl.
      destruct (dict_lookup kwargs param) as [v|] eqn:Hl;
        [|apply not_elem_of_nil].
      assert (Hv : str v ≠ tok).
      { apply (Hval param); [apply list_elem_of_here | done]. }
      assert (Hf : flag ≠ tok).
      { apply (Hflag (param, flag)), list_elem_of_here. }
      destruct v; try apply not_elem_of_nil;
        (apply not_elem_of_cons; split; [congruence|]);
        (apply not_elem_of_cons; split; [congruence|]);
        apply not_elem_of_nil.
    + apply IH.
      * intros it Hin. apply Hflag. by apply list_elem_of_further.
      * intros p v Hin. apply Hval. simpl. by apply list_elem_of_further.
Qed.

Section Foreign.

Variables (tok python_exe url output_dir : string) (kwargs : dict).
Hypothesis Hforeign : foreign tok python_exe url output_dir kwargs.
Hypothesis Hfixed : tok ∉ fixed_tokens.

Lemma base_foreign : tok ∉ base_tokens python_exe url output_dir.
Proof.
  destruct Hforeign as (He & Hu & Hd & _). unfold base_tokens.
  unfold fixed_tokens in Hfixed. apply not_elem_of_app in Hfixed as [Hf _].
  repeat (apply not_elem_of_cons in Hf as [? Hf]).
  repeat (apply not_elem_of_cons; split; [done|]). apply not_elem_of_nil.
Qed.

Lemma batch_foreign batch : tok ∉ batch_tokens batch.
Proof.
  unfold fixed_tokens in Hfixed. apply not_elem_of_app in Hfixed as [Hf _].
  repeat (apply not_elem_of_cons in Hf as [? Hf]).
  destruct batch; simpl; [|apply not_elem_of_nil].
  apply not_elem_of_cons; split; [done|]. apply not_elem_of_nil.
Qed.

Lemma mapped_foreign : tok ∉ flat_map (option_tokens kwargs) param_mapping.
Proof.
  destruct Hforeign as (_ & _ & _ & Hval).
  apply mapped_tokens_foreign; [|done].
  intros it Hin Heq. apply Hfixed. unfold fixed_tokens.
  apply elem_of_app. right. apply list_elem_of_fmap. by exists it.
Qed.

End Foreign.

(** *** Dictionaries *)

Lemma dict_lookup_remove k k' (d : dict) :
  dict_lookup (dict_remove k d) k'
  = if decide (k = k') then None else dict_lookup d k'.
Proof.
  unfold dict_remove. induction d as [|[k0 v] d IH].
  - simpl. by destruct (decide (k = k')).
  - destruct (decide (k0 = k)) as [->|Hne].
    + rewrite filter_cons_False by (simpl; intros H; by apply H).
      rewrite IH. simpl. by destruct (decide (k = k')).
    + rewrite filter_cons_True by done. simpl. rewrite IH.
      destruct (decide (k0 = k')) as [->|]; [|done].
      by destruct (decide (k = k')).
Qed.

(** Removing a key leaves every other key as it was. *)
Lemma dict_lookup_remove_ne k k' (d : dict) :
  k ≠ k' → dict_lookup (dict_remove k d) k' = dict_lookup d k'.
Proof. intros Hne. rewrite dict_lookup_remove. by destruct (decide (k = k')). Qed.

Lemma dict_lookup_Some (d : dict) k v :
  dict_wf d → dict_lookup d k = Some v ↔ (k, v) ∈ d.
Proof.
  unfold dict_wf. induction d as [|[k0 v0] d IH]; simpl; intros Hnd.
  - split; [done|]. intros H. by apply elem_of_nil in H.
  - apply NoDup_cons in Hnd as [Hnin Hnd].
    destruct (decide (k0 = k)) as [->|Hne].
    + split.
      * intros [= ->]. apply list_elem_of_here.
      * intros Hin. apply elem_of_cons in Hin as [[= ->]|Hin]; [done|].
        exfalso. apply Hnin. apply list_elem_of_fmap. by exists (k, v).
    + rewrite IH by done. split.
      * intros Hin. by apply list_elem_of_further.
      * intros Hin. apply elem_of_cons in Hin as [[= -> ->]|Hin]; done.
Qed.

(** Lookup does not depend on the order in which the keys were written. *)
Lemma dict_lookup_perm (d d' : dict) k :
  dict_wf d → d ≡ₚ d' → dict_lookup d k = dict_lookup d' k.
Proof.
  intros Hwf Hp.
  assert (Hwf' : dict_wf d').
  { unfold dict_wf in *. by rewrite <- Hp. }
  destruct (dict_lookup d k) as [v|] eqn:Hl.
  - symmetry. apply dict_lookup_Some; [done|]. rewrite <- Hp.
    by apply dict_lookup_Some.
  - destruct (dict_lookup d' k) as [v'|] eqn:Hl'; [|done].
    apply dict_lookup_Some in Hl'; [|done]. rewrite <- Hp in Hl'.
    apply dict_lookup_Some in Hl'; [|done]. congruence.
Qed.

(** *** Keys and their tokens *)

Lemma param_mapping_keys_NoDup : NoDup param_mapping.*1.
Proof. apply (bool_decide_unpack _). by vm_compute. Qed.

Lemma overwrite_not_mapped : "overwrite" ∉ param_mapping.*1.
Proof. apply (bool_decide_unpack _). by vm_compute. Qed.

(** A key bound to [None] yields the same option pairs as no key. *)
Lemma option_tokens_remove_None kwargs k (item : string * string) :
  dict_lookup kwargs k = Some PyNone →
  option_tokens (dict_remove k kwargs) item = option_tokens kwargs item.
Proof.
  intros Hnone. unfold option_tokens. rewrite dict_lookup_remove.
  destruct (decide (k = item.1)) as [<-|]; [by rewrite Hnone | done].
Qed.

(** Among the option pairs, a mapped key with a value stands for exactly
    one pair, at the place the mapping gives it. *)
Lemma mapped_pair_inserted kwargs k flag v (items : list (string * string)) :
  NoDup items.*1 → (k, flag) ∈ items →
  dict_lookup kwargs k = Some v → v ≠ PyNone →
  ∃ before after,
    flat_map (option_tokens kwargs) items = before ++ [flag; str v] ++ after ∧
    flat_map (option_tokens (dict_remove k kwargs)) items = before ++ after.
Proof.
  intros Hnd Hin Hl Hv. induction items as [|[p0 f0] items IH]; simpl.
  - by apply elem_of_nil in Hin.
  - simpl in Hnd. apply NoDup_cons in Hnd as [Hfresh Hnd].
    apply elem_of_cons in Hin as [[= <- <-]|Hin].
    + exists [], (flat_map (option_tokens kwargs) items). split.
      * unfold option_tokens at 1. simpl. rewrite Hl. by destruct v.
      * unfold option_tokens at 1. simpl. rewrite dict_lookup_remove.
        destruct (decide (k = k)); [|done]. simpl.
        apply mapped_ext. intros k' Hk'. apply dict_lookup_remove_ne.
        by intros ->.
    + destruct (IH Hnd Hin) as (before & after & Hwith & Hwithout).
      assert (Hne : k ≠ p0).
      { intros ->. apply Hfresh. apply list_elem_of_fmap. by exists (p0, flag). }
      exists (option_tokens kwargs (p0, f0) ++ before), after. split.
      * by rewrite Hwith, <- app_assoc.
      * rewrite Hwithout, <- app_assoc. f_equal.
        unfold option_tokens. simpl. by rewrite dict_lookup_remove_ne.
Qed.

(** The overwrite flag only reads the key [overwrite]. *)
Lemma overwrite_tokens_remove_ne kwargs k :
  k ≠ "overwrite" →
  overwrite_tokens (dict_remove k kwargs) = overwrite_tokens kwargs.
Proof.
  intros Hne. unfold overwrite_tokens, dict_get.
  by rewrite dict_lookup_remove_ne.
Qed.

(** A key bound to [None] builds the same command as no key. *)
Lemma build_cmd_remove_None python_exe url output_dir batch episodes kwargs k :
  dict_lookup kwargs k = Some PyNone →
  build_cmd python_exe url output_dir batch episodes kwargs
  = build_cmd python_exe url output_dir batch episodes (dict_remove k kwargs).
Proof.
  intros Hnone. rewrite !build_cmd_shape. do 3 f_equal. f_equal.
  - apply flat_map_ext. intros item. symmetry.
    by apply option_tokens_remove_None.
  - destruct (decide (k = "overwrite")) as [->|Hne].
    + unfold overwrite_tokens, dict_get.
      rewrite dict_lookup_remove, decide_True by done. by rewrite Hnone.
    + symmetry. by apply overwrite_tokens_remove_ne.
Qed.

(** The command with the overwrite key taken out ends before the flag. *)
Lemma build_cmd_without_overwrite python_exe url output_dir batch episodes
    kwargs :
  build_cmd python_exe url output_dir batch episodes
    (dict_remove "overwrite" kwargs)
  = base_tokens python_exe url output_dir
    ++ batch_tokens batch
    ++ episodes_tokens episodes
    ++ flat_map (option_tokens kwargs) param_mapping.
Proof.
  rewrite build_cmd_shape. do 3 f_equal.
  replace (overwrite_tokens (dict_remove "overwrite" kwargs))
    with (@nil string).
  2: { unfold overwrite_tokens, dict_get. rewrite dict_lookup_remove.
       by rewrite decide_True. }
  rewrite app_nil_r. apply mapped_ext. intros k Hk.
  apply dict_lookup_remove_ne. intros <-. by apply overwrite_not_mapped.
Qed.

(** *** Strings *)

Lemma string_app_nil_r (s : string) : s +:+ "" = s.
Proof.
  induction s as [|c s IH]; [done|].
  change (String c (s +:+ "") = String c s). by f_equal.
Qed.

Lemma string_app_assoc (s1 s2 s3 : string) :
  (s1 +:+ s2) +:+ s3 = s1 +:+ (s2 +:+ s3).
Proof.
  induction s1 as [|c s1 IH]; [done|].
  change (String c ((s1 +:+ s2) +:+ s3) = String c (s1 +:+ (s2 +:+ s3))).
  by f_equal.
Qed.

Lemma substring_of_app tok pre s post :
  substring_of tok s → substring_of tok (pre +:+ s +:+ post).
Proof.
  intros (a & b & ->). exists (pre +:+ a), (b +:+ post).
  by rewrite !string_app_assoc.
Qed.

(** Every element of a joined list can be read in the result. *)
Lemma join_substring sep (l : list string) x :
  x ∈ l → substring_of x (join sep l).
Proof.
  induction l as [|y l IH]; intros Hin; [by apply elem_of_nil in Hin|].
  apply elem_of_cons in Hin as [->|Hin].
  - destruct l as [|z l].
    + exists "", "". symmetry. apply string_app_nil_r.
    + exists "", (sep +:+ join sep (z :: l)). reflexivity.
  - destruct l as [|z l]; [by apply elem_of_nil in Hin|].
    change (join sep (y :: z :: l))
      with (y +:+ sep +:+ join sep (z :: l)).
    rewrite <- string_app_assoc, <- (string_app_nil_r (join sep (z :: l))).
    apply (substring_of_app x (y +:+ sep) (join sep (z :: l)) "").
    by apply IH.
Qed.

(** The decimal numeral printed for an integer reads back as it. *)
Lemma str_int_reads_back z : int_of_str (str (PyInt z)) = Some z.
Proof.
  unfold int_of_str. simpl. rewrite NilZero.isi.
  - simpl. by rewrite DecimalZ.of_to.
  - destruct z; simpl; try done.
    intros [= H]. by apply DecimalPos.Unsigned.to_uint_nonnil in H.
  - destruct z; simpl; try done.
    intros [= H]. by apply DecimalPos.Unsigned.to_uint_nonnil in H.
Qed.

(** *** Directory creation *)

Lemma suffix_cons_cases (q : path) c (p : path) :
  q `suffix_of` c :: p → q = c :: p ∨ q `suffix_of` p.
Proof.
  intros [k Hk]. destruct k as [|c' k]; simpl in Hk.
  - by left.
  - right. injection Hk as _ ->. by exists k.
Qed.

Lemma node_at_anchor fs (p : path) :
  node_at fs p = None → is_anchor p = false.
Proof. unfold node_at. by destruct (is_anchor p). Qed.

(** Looking up after a directory has been entered at a free path. *)
Lemma node_at_insert fs (p q : path) :
  node_at fs p = None →
  node_at (<[p := Dir]> fs) q
  = if decide (q = p) then Some Dir else node_at fs q.
Proof.
  intros Hfree. apply node_at_anchor in Hfree. unfold node_at.
  destruct (decide (q = p)) as [->|Hne].
  - rewrite Hfree. apply lookup_insert_eq.
  - destruct (is_anchor q); [done|]. by apply lookup_insert_ne.
Qed.

(** In a well-formed file system everything above an existing path is a
    directory. *)
Lemma fs_wf_above fs (p : path) n :
  fs_wf fs → node_at fs p = Some n →
  ∀ q, q `suffix_of` p → q ≠ p → node_at fs q = Some Dir.
Proof.
  intros Hwf. revert n. induction p as [|c p IH]; intros n Hn q Hq Hne.
  - apply suffix_nil_inv in Hq. congruence.
  - apply suffix_cons_cases in Hq as [->|Hq]; [done|].
    pose proof (Hwf _ _ Hn) as Hpar. simpl in Hpar.
    destruct (decide (q = p)) as [->|Hqp]; [done|]. by eapply IH.
Qed.

(** [os.mkdir] at a free path under a directory. *)
Lemma os_mkdir_fresh fs (p : path) :
  fs_wf fs → node_at fs p = None → node_at fs (tail p) = Some Dir →
  os_mkdir fs p = Returned (<[p := Dir]> fs) ∧ fs_wf (<[p := Dir]> fs).
Proof.
  intros Hwf Hfree Hpar. split.
  - unfold os_mkdir. by rewrite Hfree, Hpar.
  - intros q n. rewrite !node_at_insert by done.
    destruct (decide (q = p)) as [->|Hne].
    + intros _. destruct (decide (tail p = p)); [done|]. done.
    + intros Hq. destruct (decide (tail q = p)); [done|]. by eapply Hwf.
Qed.

(** Making a directory that is already there changes nothing. *)
Lemma mkdir_parents_existing fs (p : path) :
  node_at fs p = Some Dir → mkdir_parents fs p = Returned fs.
Proof.
  intros Hdir.
  assert (Hos : os_mkdir fs p = Raised FileExistsError).
  { unfold os_mkdir. by rewrite Hdir. }
  assert (His : is_dir fs p = true).
  { unfold is_dir. by apply bool_decide_eq_true. }
  destruct p; cbn [mkdir_parents]; by rewrite Hos, His.
Qed.

(** [mkdir(parents=True, exist_ok=True)] succeeds whenever no regular
    file is in the way; afterwards the path and everything above it are
    directories and nothing else has changed. *)
Lemma mkdir_parents_creates fs (p : path) :
  fs_wf fs → creatable fs p →
  ∃ fs', mkdir_parents fs p = Returned fs' ∧ fs_wf fs' ∧
    (∀ q, q `suffix_of` p → node_at fs' q = Some Dir) ∧
    (∀ q, ¬ q `suffix_of` p → node_at fs' q = node_at fs q).
Proof.
  revert fs. induction p as [|c p IH]; intros fs Hwf Hcr.
  - exists fs. split; [by apply mkdir_parents_existing|].
    split; [done|]. split; [|done].
    intros q Hq. by apply suffix_nil_inv in Hq as ->.
  - destruct (node_at fs (c :: p)) as [[]|] eqn:Hp.
    + exists fs. split; [by apply mkdir_parents_existing|].
      split; [done|]. split; [|done].
      intros q Hq. destruct (decide (q = c :: p)) as [->|Hne]; [done|].
      by eapply fs_wf_above.
    + by destruct (Hcr (c :: p)).
    + assert (Hcr' : creatable fs p).
      { intros q Hq. apply Hcr. by apply suffix_cons_r. }
      destruct (node_at fs p) as [[]|] eqn:Hpar.
      * destruct (os_mkdir_fresh fs (c :: p)) as [Hos Hwf']; try done.
        exists (<[c :: p := Dir]> fs). cbn [mkdir_parents]. rewrite Hos.
        split; [done|]. split; [done|]. split.
        -- intros q Hq. rewrite node_at_insert by done.
           destruct (decide (q = c :: p)); [done|].
           apply suffix_cons_cases in Hq as [?|Hq]; [done|].
           destruct (decide (q = p)) as [->|]; [done|].
           by eapply fs_wf_above.
        -- intros q Hq. rewrite node_at_insert by done.
           destruct (decide (q = c :: p)) as [->|]; [|done].
           by destruct Hq.
      * destruct (Hcr' p); done.
      * destruct (IH fs Hwf Hcr') as (fs1 & Hmk & Hwf1 & Hdirs & Hsame).
        assert (Hp1 : node_at fs1 (c :: p) = None).
        { rewrite Hsame; [done|]. apply suffix_cons_not. }
        assert (Hpar1 : node_at fs1 p = Some Dir) by by apply Hdirs.
        destruct (os_mkdir_fresh fs1 (c :: p)) as [Hos Hwf']; try done.
        exists (<[c :: p := Dir]> fs1). cbn [mkdir_parents].
        assert (Hfirst : os_mkdir fs (c :: p) = Raised FileNotFoundError).
        { unfold os_mkdir. simpl. by rewrite Hp, Hpar. }
        rewrite Hfirst, Hmk. unfold mkdir_exist_ok. rewrite Hos.
        split; [done|]. split; [done|]. split.
        -- intros q Hq. rewrite node_at_insert by done.
           destruct (decide (q = c :: p)); [done|].
           apply suffix_cons_cases in Hq as [?|Hq]; [done|]. by apply Hdirs.
        -- intros q Hq. rewrite node_at_insert by done.
           destruct (decide (q = c :: p)) as [->|]; [by destruct Hq|].
           apply Hsame. intros Hq'. apply Hq. by apply suffix_cons_r.
Qed.

Lemma node_at_empty (p : path) : node_at ∅ p ≠ Some File.
Proof. unfold node_at. by destruct (is_anchor p). Qed.

Lemma fs_wf_empty : fs_wf ∅.
Proof.
  intros p n. unfold node_at at 1.
  destruct (is_anchor p) eqn:Ha; [|done]. intros _.
  apply bool_decide_eq_true in Ha as [->| ->]; reflexivity.
Qed.

Lemma creatable_empty (p : path) : creatable ∅ p.
Proof. intros q _. apply node_at_empty. Qed.

(** *** One run, step by step *)

Section Run.

Variables (url output_dir : string) (batch : bool).
Variables (episodes : option string) (kwargs : dict).

(** Nothing happens when the directory cannot be made: the exception
    leaves the function before anything is printed or started. *)
Lemma run_mkdir_raised (w : World) e :
  mkdir_parents (fs w) (Path output_dir) = Raised e →
  download_bilibili_video url output_dir batch episodes kwargs w
  = (Raised e, w).
Proof.
  intros Hmk. unfold download_bilibili_video, mbind, M_bind, bind, Path_mkdir.
  by rewrite Hmk.
Qed.

(** Once the directory is there, the run prints its announcement, starts
    the child in the new file system and reports its exit status. *)
Lemma run_after_mkdir (w : World) fs1 :
  mkdir_parents (fs w) (Path output_dir) = Returned fs1 →
  let cmd :=
    build_cmd (sys_executable w) url output_dir batch episodes kwargs in
  let evs :=
    announce url output_dir batch episodes cmd
    ++ [Spawned cmd (child_env w)] in
  download_bilibili_video url output_dir batch episodes kwargs w
  = match child w cmd (child_env w) fs1 with
    | LaunchError e => (Raised e, advance w fs1 evs)
    | Exited returncode fs2 =>
        (Returned tt,
         advance w fs2 (evs ++ [Printed (verdict returncode)]))
    end.
Proof.
  intros Hmk cmd evs. subst cmd evs.
  unfold download_bilibili_video, mbind, M_bind, bind, Path_mkdir, mret,
    M_ret, ret, gets, print, modify, subprocess_run, announce, advance,
    child_env, verdict, episodes_truthy, log, set_fs.
  rewrite Hmk. simpl.
  destruct episodes as [e|]; [destruct (bool_decide (e = ""))|]; simpl;
    match goal with |- context [child w ?c ?v ?f] =>
      destruct (child w c v f) as [err|rc fs2] end; simpl;
    rewrite <- ?app_assoc; simpl; try done;
    destruct (rc =? 0)%Z; simpl; by rewrite <- ?app_assoc.
Qed.

End Run.

(** A run reads [kwargs] only through the command it builds. *)
Lemma run_ext url output_dir batch episodes kwargs kwargs' :
  (∀ python_exe,
     build_cmd python_exe url output_dir batch episodes kwargs
     = build_cmd python_exe url output_dir batch episodes kwargs') →
  ∀ w, download_bilibili_video url output_dir batch episodes kwargs w
       = download_bilibili_video url output_dir batch episodes kwargs' w.
Proof.
  intros Hcmd w.
  destruct (mkdir_parents (fs w) (Path output_dir)) as [fs1|e] eqn:Hmk.
  - rewrite !(run_after_mkdir _ _ _ _ _ _ _ Hmk). by rewrite Hcmd.
  - by rewrite !(run_mkdir_raised _ _ _ _ _ _ _ Hmk).
Qed.

Lemma spawned_app (evs evs' : list event) :
  spawned (evs ++ evs') = spawned evs ++ spawned evs'.
Proof. apply flat_map_app. Qed.

Lemma spawned_announce url output_dir batch episodes cmd :
  spawned (announce url output_dir batch episodes cmd) = [].
Proof.
  unfold announce. rewrite !spawned_app.
  destruct episodes as [e|]; [destruct (bool_decide (e = ""))|]; done.
Qed.

(** The trace of a run whose directory could be made: the announcement,
    the child, and the report if the child came to an end. *)
Lemma run_trace url output_dir batch episodes kwargs (w : World) fs1 :
  mkdir_parents (fs w) (Path output_dir) = Returned fs1 →
  let cmd :=
    build_cmd (sys_executable w) url output_dir batch episodes kwargs in
  ∃ report,
    trace (download_bilibili_video url output_dir batch episodes kwargs w).2
    = trace w ++ announce url output_dir batch episodes cmd
      ++ [Spawned cmd (child_env w)] ++ report
    ∧ spawned report = [].
Proof.
  intros Hmk cmd. rewrite (run_after_mkdir _ _ _ _ _ _ _ Hmk).
  fold cmd. destruct (child w cmd (child_env w) fs1) as [e|rc fs2]; simpl.
  - exists []. simpl. by rewrite <- ?app_assoc.
  - exists [Printed (verdict rc)]. simpl. by rewrite <- ?app_assoc.
Qed.

(** Exactly one child is started, with the command built and the
    environment prepared. *)
Lemma run_spawned url output_dir batch episodes kwargs (w : World) fs1 :
  mkdir_parents (fs w) (Path output_dir) = Returned fs1 →
  spawned
    (trace (download_bilibili_video url output_dir batch episodes kwargs w).2)
  = spawned (trace w)
    ++ [(build_cmd (sys_executable w) url output_dir batch episodes kwargs,
         child_env w)].
Proof.
  intros Hmk.
  destruct (run_trace url output_dir batch episodes kwargs w fs1 Hmk)
    as (report & -> & Hreport).
  rewrite !spawned_app, spawned_announce, Hreport. simpl.
  by rewrite ?app_nil_r.
Qed.

(** ** The command line *)

(** C1, as worded: the episode pair follows whenever a selection is
    supplied.  An empty selection is supplied and yet no pair is built:
    with [episodes=""] the command stops after [--dir downloads]. *)
Lemma construction_order_empty_episodes :
  build_cmd "python" "https://example.com/v/1" "downloads" false (Some "") []
  = ["python"; "-m"; "yutto"; "https://example.com/v/1"; "--dir"; "downloads"]
  ∧ cmd_episodes_if_supplied "python" "https://example.com/v/1" "downloads"
      false (Some "") []
    ≠ build_cmd "python" "https://example.com/v/1" "downloads" false
        (Some "") [].
Proof. split; [reflexivity | by vm_compute]. Qed.

(** C1 (amended): every command is the base invocation with the URL and
    [--dir output_dir], then [--batch] exactly when [batch] holds, then
    [--episodes e] exactly when a non-empty selection [e] is supplied,
    then the pairs of the mapped options in the order of the mapping, then
    the overwrite flag; the call of the example builds the twelve tokens
    listed, in that order. *)
Theorem construction_order python_exe url output_dir batch episodes kwargs :
  build_cmd python_exe url output_dir batch episodes kwargs
  = [python_exe; "-m"; "yutto"; url; "--dir"; output_dir]
    ++ (if batch then ["--batch"] else [])
    ++ match episodes with
       | Some e => if bool_decide (e = "") then [] else ["--episodes"; e]
       | None => []
       end
    ++ flat_map (option_tokens kwargs) param_mapping
    ++ (if truthy (dict_get kwargs "overwrite" (PyBool false))
        then ["--overwrite"] else [])
  ∧ build_cmd python_exe "https://example.com/v/1" "downloads" true
      (Some "1-3") [("video_quality", PyInt 80); ("overwrite", PyBool true)]
    = [python_exe; "-m"; "yutto"; "https://example.com/v/1";
       "--dir"; "downloads"; "--batch"; "--episodes"; "1-3";
       "--video-quality"; "80"; "--overwrite"].
Proof. split; [apply build_cmd_shape | reflexivity]. Qed.

(** C2: a key outside the recognized set changes neither the command nor
    the run (so it raises nothing); a key bound to [None], like a key that
    is absent, builds the same command as no key; a mapped key bound to a
    value other than [None] stands for exactly the pair [--<flag-name>],
    [str(value)]: the command is the one built without the key with that
    pair put in. *)
Theorem option_keys python_exe url output_dir batch episodes kwargs k :
  let cmd := build_cmd python_exe url output_dir batch episodes kwargs in
  let without :=
    build_cmd python_exe url output_dir batch episodes
      (dict_remove k kwargs) in
  (k ∉ recognized →
     cmd = without
     ∧ ∀ w, download_bilibili_video url output_dir batch episodes kwargs w
            = download_bilibili_video url output_dir batch episodes
                (dict_remove k kwargs) w)
  ∧ (dict_lookup kwargs k = Some PyNone ∨ dict_lookup kwargs k = None →
       cmd = without)
  ∧ (∀ flag v, (k, flag) ∈ param_mapping →
       dict_lookup kwargs k = Some v → v ≠ PyNone →
       flag = flag_name k
       ∧ ∃ before after,
           cmd = before ++ [flag; str v] ++ after
           ∧ without = before ++ after).
Proof.
  intros cmd without. subst cmd without. split; [|split].
  - intros Hk.
    assert (Hext : ∀ exe,
      build_cmd exe url output_dir batch episodes kwargs
      = build_cmd exe url output_dir batch episodes (dict_remove k kwargs)).
    { intros exe. apply build_cmd_ext. intros k' Hk'. symmetry.
      apply dict_lookup_remove_ne. by intros ->. }
    split; [apply Hext | by apply run_ext].
  - intros [Hnone|Habsent].
    + by apply build_cmd_remove_None.
    + apply build_cmd_ext. intros k' _. rewrite dict_lookup_remove.
      by destruct (decide (k = k')) as [<-|].
  - intros flag v Hin Hl Hv. split; [apply (mapped_flag_names _ Hin)|].
    destruct (mapped_pair_inserted kwargs k flag v param_mapping
                param_mapping_keys_NoDup Hin Hl Hv)
      as (before & after & Hwith & Hwithout).
    exists (base_tokens python_exe url output_dir ++ batch_tokens batch
            ++ episodes_tokens episodes ++ before),
           (after ++ overwrite_tokens kwargs).
    rewrite !build_cmd_shape, Hwith, Hwithout.
    rewrite overwrite_tokens_remove_ne.
    + by rewrite <- !app_assoc.
    + intros ->. apply overwrite_not_mapped.
      apply list_elem_of_fmap. by exists ("overwrite", flag).
Qed.

Lemma option_keys_witness :
  let kwargs :=
    [("sessdata", PyStr "abc"); ("colour", PyStr "red");
     ("proxy", PyNone)] in
  let cmd := build_cmd "python" "https://example.com/v/1" "downloads" false
               None kwargs in
  ("colour" ∉ recognized)
  ∧ cmd = build_cmd "python" "https://example.com/v/1" "downloads" false
            None (dict_remove "colour" kwargs)
  ∧ cmd = build_cmd "python" "https://example.com/v/1" "downloads" false
            None (dict_remove "proxy" kwargs)
  ∧ ∃ before after,
      cmd = before ++ ["--sessdata"; "abc"] ++ after
      ∧ build_cmd "python" "https://example.com/v/1" "downloads" false
          None (dict_remove "sessdata" kwargs) = before ++ after.
Proof.
  intros kwargs cmd.
  assert (Hcolour : "colour" ∉ recognized).
  { apply (bool_decide_unpack _). by vm_compute. }
  destruct (option_keys "python" "https://example.com/v/1" "downloads" false
              None kwargs "colour") as (Hunknown & _ & _).
  destruct (option_keys "python" "https://example.com/v/1" "downloads" false
              None kwargs "proxy") as (_ & Hnone & _).
  destruct (option_keys "python" "https://example.com/v/1" "downloads" false
              None kwargs "sessdata") as (_ & _ & Hpair).
  split; [exact Hcolour|]. split; [|split].
  - by apply Hunknown.
  - apply Hnone. by left.
  - apply (Hpair "--sessdata" (PyStr "abc")); [|done|done].
    apply (bool_decide_unpack _). by vm_compute.
Defined.

(** C3, as worded: without the overwrite option the token [--overwrite]
    occurs nowhere.  A download directory of that name puts it in the
    command. *)
Lemma overwrite_absent_yet_present :
  dict_lookup [] "overwrite" = None
  ∧ "--overwrite" ∈ build_cmd "python" "https://example.com/v/1"
                      "--overwrite" false None [].
Proof. split; [reflexivity|]. vm_compute. set_solver. Qed.

(** C3 (amended): when the overwrite option is absent or falsy the builder
    appends no flag, the command being the one built without the key, and
    [--overwrite] occurs nowhere in it unless the interpreter path, the
    URL, the directory, the episode selection or a mapped option value is
    that very token; when the option is truthy the command is the one
    built without the key followed by one [--overwrite], which is its last
    token, and under the same proviso its only occurrence. *)
Theorem overwrite_flag python_exe url output_dir batch episodes kwargs :
  let cmd := build_cmd python_exe url output_dir batch episodes kwargs in
  let rest :=
    build_cmd python_exe url output_dir batch episodes
      (dict_remove "overwrite" kwargs) in
  let clean :=
    foreign "--overwrite" python_exe url output_dir kwargs
    ∧ episodes ≠ Some "--overwrite" in
  (truthy (dict_get kwargs "overwrite" (PyBool false)) = false →
     cmd = rest ∧ (clean → "--overwrite" ∉ cmd))
  ∧ (truthy (dict_get kwargs "overwrite" (PyBool false)) = true →
       cmd = rest ++ ["--overwrite"]
       ∧ last cmd = Some "--overwrite"
       ∧ (clean → occurrences "--overwrite" cmd = 1)).
Proof.
  intros cmd rest clean.
  assert (Hfixed : "--overwrite" ∉ fixed_tokens).
  { apply (bool_decide_unpack _). by vm_compute. }
  assert (Hrest : clean → "--overwrite" ∉ rest).
  { intros [Hf He]. subst rest. rewrite build_cmd_without_overwrite.
    apply not_elem_of_app; split; [|apply not_elem_of_app; split;
      [|apply not_elem_of_app; split]].
    - by eapply base_foreign.
    - by apply batch_foreign.
    - unfold episodes_tokens. destruct episodes as [e|]; [|apply not_elem_of_nil].
      destruct (bool_decide (e = "")); [apply not_elem_of_nil|].
      apply not_elem_of_cons; split; [done|].
      apply not_elem_of_cons; split; [congruence|]. apply not_elem_of_nil.
    - by eapply mapped_foreign. }
  assert (Hcmd : cmd = rest ++ overwrite_tokens kwargs).
  { subst cmd rest. rewrite build_cmd_without_overwrite, build_cmd_shape.
    by rewrite <- !app_assoc. }
  unfold overwrite_tokens in Hcmd. split; intros Ht; rewrite Ht in Hcmd.
  - rewrite app_nil_r in Hcmd. split; [done|]. rewrite Hcmd. apply Hrest.
  - split; [done|]. split.
    + rewrite Hcmd. apply last_snoc.
    + intros Hclean. rewrite Hcmd, occurrences_app.
      rewrite occurrences_zero by by apply Hrest. reflexivity.
Qed.

Lemma overwrite_flag_witness :
  let kwargs := [("video_quality", PyInt 80); ("overwrite", PyBool true)] in
  let cmd :=
    build_cmd "python" "https://example.com/v/1" "downloads" true
      (Some "1-3") kwargs in
  truthy (dict_get kwargs "overwrite" (PyBool false)) = true
  ∧ foreign "--overwrite" "python" "https://example.com/v/1" "downloads"
      kwargs
  ∧ last cmd = Some "--overwrite"
  ∧ occurrences "--overwrite" cmd = 1.
Proof.
  intros kwargs cmd.
  assert (Hforeign :
    foreign "--overwrite" "python" "https://example.com/v/1" "downloads"
      kwargs).
  { repeat split; try done. intros param v _. subst kwargs. simpl.
    repeat (destruct (decide _); [by intros [= <-]|]). done. }
  destruct (overwrite_flag "python" "https://example.com/v/1" "downloads"
              true (Some "1-3") kwargs) as [_ Htrue].
  destruct (Htrue eq_refl) as (_ & Hlast & Honce).
  split; [reflexivity|]. split; [exact Hforeign|]. split; [exact Hlast|].
  apply Honce. split; [exact Hforeign | done].
Defined.

(** C4, as worded: without an episode selection no [--episodes] token
    occurs.  A download directory of that name puts it in the command. *)
Lemma episodes_absent_yet_present :
  "--episodes" ∈ build_cmd "python" "https://example.com/v/1" "--episodes"
                   false None [].
Proof. vm_compute. set_solver. Qed.

(** C4 (amended): without an episode selection the builder appends no
    episode pair, and [--episodes] occurs nowhere in the command unless the
    interpreter path, the URL, the directory or a mapped option value is
    that very token; with [episodes="1,3,5"] the command is the one built
    without a selection with the adjacent pair [--episodes], [1,3,5] put
    in after the base invocation and the batch flag, and each of the two
    tokens occurs exactly once unless one of those other inputs is that
    very token. *)
Theorem episodes_pair python_exe url output_dir batch kwargs :
  let absent := build_cmd python_exe url output_dir batch None kwargs in
  let chosen :=
    build_cmd python_exe url output_dir batch (Some "1,3,5") kwargs in
  let before :=
    [python_exe; "-m"; "yutto"; url; "--dir"; output_dir]
    ++ (if batch then ["--batch"] else []) in
  ∃ after,
    absent = before ++ after
    ∧ chosen = before ++ ["--episodes"; "1,3,5"] ++ after
    ∧ (foreign "--episodes" python_exe url output_dir kwargs →
         ("--episodes" ∉ absent) ∧ occurrences "--episodes" chosen = 1)
    ∧ (foreign "1,3,5" python_exe url output_dir kwargs →
         occurrences "1,3,5" chosen = 1).
Proof.
  intros absent chosen before.
  exists (flat_map (option_tokens kwargs) param_mapping
          ++ overwrite_tokens kwargs).
  assert (Habsent : absent = before ++
    flat_map (option_tokens kwargs) param_mapping ++ overwrite_tokens kwargs).
  { subst absent before. rewrite build_cmd_shape. unfold base_tokens,
      batch_tokens, episodes_tokens. by rewrite <- !app_assoc. }
  assert (Hchosen : chosen = before ++ ["--episodes"; "1,3,5"] ++
    flat_map (option_tokens kwargs) param_mapping ++ overwrite_tokens kwargs).
  { subst chosen before. rewrite build_cmd_shape. unfold base_tokens,
      batch_tokens, episodes_tokens. by rewrite <- !app_assoc. }
  assert (Helse : ∀ tok, tok ∉ fixed_tokens → tok ≠ "--overwrite" →
    foreign tok python_exe url output_dir kwargs → tok ∉ absent).
  { intros tok Hfixed Hov Hf. rewrite Habsent. subst before.
    apply not_elem_of_app; split; [apply not_elem_of_app; split|
      apply not_elem_of_app; split].
    - by eapply base_foreign.
    - by apply (batch_foreign tok Hfixed batch).
    - by eapply mapped_foreign.
    - unfold overwrite_tokens. destruct (truthy _); [|apply not_elem_of_nil].
      apply not_elem_of_cons; split; [done|]. apply not_elem_of_nil. }
  assert (Hcount : ∀ tok, tok ∉ absent →
    occurrences tok chosen = occurrences tok ["--episodes"; "1,3,5"]).
  { intros tok Hnin. rewrite Habsent in Hnin.
    apply not_elem_of_app in Hnin as [Hb Ha].
    rewrite Hchosen, occurrences_app, occurrences_app.
    rewrite (occurrences_zero _ _ Hb), (occurrences_zero _ _ Ha). lia. }
  split; [done|]. split; [done|]. split.
  - intros Hf.
    assert (Hnin : "--episodes" ∉ absent).
    { apply Helse; [|done|done]. apply (bool_decide_unpack _). by vm_compute. }
    split; [done|]. by rewrite Hcount.
  - intros Hf. rewrite Hcount; [done|].
    apply Helse; [|done|done]. apply (bool_decide_unpack _). by vm_compute.
Qed.

Lemma episodes_pair_witness :
  let kwargs := [("video_quality", PyInt 80)] in
  let chosen :=
    build_cmd "python" "https://example.com/v/1" "downloads" true
      (Some "1,3,5") kwargs in
  foreign "--episodes" "python" "https://example.com/v/1" "downloads" kwargs
  ∧ foreign "1,3,5" "python" "https://example.com/v/1" "downloads" kwargs
  ∧ occurrences "--episodes" chosen = 1
  ∧ occurrences "1,3,5" chosen = 1.
Proof.
  intros kwargs chosen.
  assert (Hforeign : ∀ tok, tok ≠ "80" → tok ≠ "python" →
    tok ≠ "https://example.com/v/1" → tok ≠ "downloads" →
    foreign tok "python" "https://example.com/v/1" "downloads" kwargs).
  { intros tok H80 ???. repeat split; try done. intros param v _.
    subst kwargs. simpl. destruct (decide _); [|done].
    intros [= <-]. simpl. congruence. }
  destruct (episodes_pair "python" "https://example.com/v/1" "downloads"
              true kwargs) as (after & _ & _ & Hflag & Hvalue).
  split; [by apply Hforeign|]. split; [by apply Hforeign|]. split.
  - apply Hflag. by apply Hforeign.
  - apply Hvalue. by apply Hforeign.
Defined.

(** ** The run *)

(** C5: the function returns nothing (the unit of [None]) and raises
    nothing once the child has come to an end, whatever its exit status;
    what it learnt is in the one line printed after the child: the
    completion message for status 0, and for any other status the failure
    message followed by the status as a decimal numeral, so that status 1
    prints a line ending in [1]. *)
Theorem exit_status_report url output_dir batch episodes kwargs
    (w : World) fs1 returncode fs2 :
  let cmd :=
    build_cmd (sys_executable w) url output_dir batch episodes kwargs in
  mkdir_parents (fs w) (Path output_dir) = Returned fs1 →
  child w cmd (child_env w) fs1 = Exited returncode fs2 →
  ∃ w' line,
    download_bilibili_video url output_dir batch episodes kwargs w
    = (Returned tt, w')
    ∧ trace w' = trace w ++ announce url output_dir batch episodes cmd
                 ++ [Spawned cmd (child_env w); Printed line]
    ∧ (returncode = 0%Z → line = "下载完成!")
    ∧ (returncode ≠ 0%Z →
         ∃ code, line = "下载失败，返回码: " +:+ code
                 ∧ int_of_str code = Some returncode)
    ∧ (returncode = 1%Z → line = "下载失败，返回码: 1").
Proof.
  intros cmd Hmk Hchild.
  rewrite (run_after_mkdir _ _ _ _ _ _ _ Hmk). fold cmd. rewrite Hchild.
  eexists _, (verdict returncode). split; [reflexivity|]. split.
  - simpl. by rewrite <- !app_assoc.
  - unfold verdict. split; [by intros ->|]. split; [|by intros ->].
    intros Hne. apply Z.eqb_neq in Hne. rewrite Hne.
    eexists. split; [reflexivity|]. apply str_int_reads_back.
Qed.

Lemma exit_status_report_witness :
  let w := sample_world 1 in
  let cmd := build_cmd "python" "https://example.com/v/1" "downloads" false
               None [] in
  mkdir_parents (fs w) (Path "downloads")
  = Returned (<[["downloads"] := Dir]> ∅)
  ∧ child w cmd (child_env w) (<[["downloads"] := Dir]> ∅)
    = Exited 1 (<[["downloads"] := Dir]> ∅)
  ∧ ∃ w' line,
      download_bilibili_video "https://example.com/v/1" "downloads" false
        None [] w = (Returned tt, w')
      ∧ line = "下载失败，返回码: 1".
Proof.
  intros w cmd.
  assert (Hmk : mkdir_parents (fs w) (Path "downloads")
                = Returned (<[["downloads"] := Dir]> ∅)) by by vm_compute.
  assert (Hchild : child w cmd (child_env w) (<[["downloads"] := Dir]> ∅)
                   = Exited 1 (<[["downloads"] := Dir]> ∅)) by reflexivity.
  split; [exact Hmk|]. split; [exact Hchild|].
  destruct (exit_status_report "https://example.com/v/1" "downloads" false
              None [] w _ _ _ Hmk Hchild)
    as (w' & line & Hrun & Htrace & _ & _ & Hone).
  exists w', line. split; [exact Hrun | by apply Hone].
Defined.

(** C6: in a well-formed file system where no regular file is in the way,
    the run makes the directory and every missing directory above it and
    touches nothing else, and it does so first: the child is started in
    the file system that has them.  Making the directory again changes
    nothing and raises nothing, and a later call for a directory that is
    there goes straight on to its child, the file system as it was. *)
Theorem output_dir_created url output_dir batch episodes kwargs (w : World) :
  fs_wf (fs w) → creatable (fs w) (Path output_dir) →
  ∃ fs1,
    mkdir_parents (fs w) (Path output_dir) = Returned fs1
    ∧ (∀ q, q `suffix_of` Path output_dir → node_at fs1 q = Some Dir)
    ∧ (∀ q, ¬ q `suffix_of` Path output_dir →
         node_at fs1 q = node_at (fs w) q)
    ∧ download_bilibili_video url output_dir batch episodes kwargs w
      = run_from fs1 url output_dir batch episodes kwargs w
    ∧ mkdir_parents fs1 (Path output_dir) = Returned fs1
    ∧ ∀ url' batch' episodes' kwargs' (w' : World),
        node_at (fs w') (Path output_dir) = Some Dir →
        download_bilibili_video url' output_dir batch' episodes' kwargs' w'
        = run_from (fs w') url' output_dir batch' episodes' kwargs' w'.
Proof.
  intros Hwf Hcr.
  destruct (mkdir_parents_creates _ _ Hwf Hcr)
    as (fs1 & Hmk & _ & Hdirs & Hsame).
  exists fs1. split; [done|]. split; [done|]. split; [done|].
  split; [by apply run_after_mkdir|]. split.
  - apply mkdir_parents_existing. by apply Hdirs.
  - intros url' batch' episodes' kwargs' w' Hdir.
    apply run_after_mkdir. by apply mkdir_parents_existing.
Qed.

Lemma output_dir_created_witness :
  let w := sample_world 0 in
  fs_wf (fs w) ∧ creatable (fs w) (Path "downloads/collection")
  ∧ ∃ fs1,
      mkdir_parents (fs w) (Path "downloads/collection") = Returned fs1
      ∧ node_at fs1 ["collection"; "downloads"] = Some Dir
      ∧ node_at fs1 ["downloads"] = Some Dir
      ∧ mkdir_parents fs1 (Path "downloads/collection") = Returned fs1.
Proof.
  intros w.
  assert (Hwf : fs_wf (fs w)) by apply fs_wf_empty.
  assert (Hcr : creatable (fs w) (Path "downloads/collection"))
    by apply creatable_empty.
  split; [exact Hwf|]. split; [exact Hcr|].
  destruct (output_dir_created
              "https://space.bilibili.com/20972760/favlist"
              "downloads/collection" true None
              [("video_quality", PyInt 80)] w Hwf Hcr)
    as (fs1 & Hmk & Hdirs & _ & _ & Hagain & _).
  exists fs1. split; [exact Hmk|]. split; [|split; [|exact Hagain]].
  - apply Hdirs. exists []. reflexivity.
  - apply Hdirs. exists ["collection"]. reflexivity.
Defined.

(** C7: the command is a function of the interpreter path and the
    arguments, and of the keyword arguments it depends only on what each
    key is bound to, not on the order in which the caller wrote them: two
    calls that differ only in that order build the same command and run
    alike, and two calls made in different worlds with the same interpreter
    start their child with the same command. *)
Theorem command_deterministic url output_dir batch episodes
    (kwargs kwargs' : dict) :
  dict_wf kwargs → kwargs ≡ₚ kwargs' →
  (∀ python_exe,
     build_cmd python_exe url output_dir batch episodes kwargs
     = build_cmd python_exe url output_dir batch episodes kwargs')
  ∧ (∀ w, download_bilibili_video url output_dir batch episodes kwargs w
          = download_bilibili_video url output_dir batch episodes kwargs' w)
  ∧ (∀ w w' fs1 fs1',
       sys_executable w = sys_executable w' →
       mkdir_parents (fs w) (Path output_dir) = Returned fs1 →
       mkdir_parents (fs w') (Path output_dir) = Returned fs1' →
       (spawned (trace (download_bilibili_video url output_dir batch
                          episodes kwargs w).2)).*1
       = (spawned (trace w)).*1
         ++ [build_cmd (sys_executable w) url output_dir batch episodes
               kwargs]
       ∧ (spawned (trace (download_bilibili_video url output_dir batch
                            episodes kwargs' w').2)).*1
         = (spawned (trace w')).*1
           ++ [build_cmd (sys_executable w) url output_dir batch episodes
                 kwargs]).
Proof.
  intros Hwf Hperm.
  assert (Hcmd : ∀ python_exe,
    build_cmd python_exe url output_dir batch episodes kwargs
    = build_cmd python_exe url output_dir batch episodes kwargs').
  { intros exe. apply build_cmd_ext. intros k _.
    by apply dict_lookup_perm. }
  split; [done|]. split; [by apply run_ext|].
  intros w w' fs1 fs1' Hexe Hmk Hmk'.
  rewrite (run_spawned _ _ _ _ _ _ _ Hmk), (run_spawned _ _ _ _ _ _ _ Hmk').
  rewrite !fmap_app. simpl. by rewrite <- Hexe, <- Hcmd.
Qed.

Lemma command_deterministic_witness :
  let kwargs := [("video_quality", PyInt 80); ("overwrite", PyBool true)] in
  let kwargs' := [("overwrite", PyBool true); ("video_quality", PyInt 80)] in
  dict_wf kwargs ∧ kwargs ≡ₚ kwargs'
  ∧ build_cmd "python" "https://example.com/v/1" "downloads" true
      (Some "1-3") kwargs
    = build_cmd "python" "https://example.com/v/1" "downloads" true
        (Some "1-3") kwargs'.
Proof.
  intros kwargs kwargs'.
  assert (Hwf : dict_wf kwargs).
  { apply (bool_decide_unpack _). by vm_compute. }
  assert (Hperm : kwargs ≡ₚ kwargs') by apply perm_swap.
  split; [exact Hwf|]. split; [exact Hperm|].
  apply (command_deterministic "https://example.com/v/1" "downloads" true
           (Some "1-3") kwargs kwargs' Hwf Hperm).
Defined.

(** C8: the one child a run starts gets the parent's environment with
    [PYTHONPATH] set to the source directory, a [;], and the value the
    parent had for it if any; every other variable is handed on as it is,
    and the parent's own environment is left alone. *)
Theorem child_environment url output_dir batch episodes kwargs
    (w : World) fs1 :
  mkdir_parents (fs w) (Path output_dir) = Returned fs1 →
  let after :=
    (download_bilibili_video url output_dir batch episodes kwargs w).2 in
  ∃ cmd env,
    spawned (trace after) = spawned (trace w) ++ [(cmd, env)]
    ∧ env !! "PYTHONPATH"
      = Some (src_path w +:+ ";"
              +:+ default "" (os_environ w !! "PYTHONPATH"))
    ∧ (∀ var, var ≠ "PYTHONPATH" → env !! var = os_environ w !! var)
    ∧ os_environ after = os_environ w.
Proof.
  intros Hmk after.
  exists (build_cmd (sys_executable w) url output_dir batch episodes kwargs),
         (child_env w).
  split; [by eapply run_spawned|]. unfold child_env. split; [|split].
  - apply lookup_insert_eq.
  - intros var Hne. by apply lookup_insert_ne.
  - subst after. rewrite (run_after_mkdir _ _ _ _ _ _ _ Hmk).
    by destruct (child w _ _ fs1).
Qed.

Lemma child_environment_witness :
  let w := sample_world 0 in
  mkdir_parents (fs w) (Path "downloads")
  = Returned (<[["downloads"] := Dir]> ∅)
  ∧ ∃ cmd env,
      spawned (trace (download_bilibili_video "https://example.com/v/1"
                        "downloads" false None [] w).2)
      = spawned (trace w) ++ [(cmd, env)]
      ∧ env !! "PYTHONPATH" = Some "/app/src;"
      ∧ env !! "HOME" = Some "/root".
Proof.
  intros w.
  assert (Hmk : mkdir_parents (fs w) (Path "downloads")
                = Returned (<[["downloads"] := Dir]> ∅)) by by vm_compute.
  split; [exact Hmk|].
  destruct (child_environment "https://example.com/v/1" "downloads" false
              None [] w _ Hmk) as (cmd & env & Hsp & Hpath & Hrest & _).
  exists cmd, env. split; [exact Hsp|]. split.
  - rewrite Hpath. reflexivity.
  - rewrite Hrest by done. reflexivity.
Defined.

(** C9: an empty episode selection is treated exactly as none: the command
    is the same, with no [--episodes] among the tokens the builder adds,
    the whole run is the same, and no line about the selection is printed:
    a run whose directory could be made prints the URL, the directory, the
    batch mode and the command, in that order and nothing between them,
    starts the child, and prints at most the report of its exit status; a
    run whose directory could not be made prints nothing. *)
Theorem empty_episodes_as_absent python_exe url output_dir batch kwargs :
  build_cmd python_exe url output_dir batch (Some "") kwargs
  = build_cmd python_exe url output_dir batch None kwargs
  ∧ build_cmd python_exe url output_dir batch (Some "") kwargs
    = [python_exe; "-m"; "yutto"; url; "--dir"; output_dir]
      ++ (if batch then ["--batch"] else [])
      ++ flat_map (option_tokens kwargs) param_mapping
      ++ overwrite_tokens kwargs
  ∧ (∀ w, download_bilibili_video url output_dir batch (Some "") kwargs w
          = download_bilibili_video url output_dir batch None kwargs w)
  ∧ (∀ w fs1,
       mkdir_parents (fs w) (Path output_dir) = Returned fs1 →
       let cmd :=
         build_cmd (sys_executable w) url output_dir batch (Some "") kwargs in
       ∃ report,
         trace (download_bilibili_video url output_dir batch (Some "")
                  kwargs w).2
         = trace w
           ++ [ Printed ("开始下载: " +:+ url);
                Printed ("下载目录: " +:+ output_dir);
                Printed ("批量模式: " +:+ (if batch then "启用" else "禁用"));
                Printed ("执行命令: " +:+ join " " cmd);
                Spawned cmd (child_env w) ]
           ++ report
         ∧ (report = []
            ∨ ∃ returncode,
                report
                = [Printed (if (returncode =? 0)%Z then "下载完成!"
                            else "下载失败，返回码: "
                                 +:+ str (PyInt returncode))]))
  ∧ (∀ w e,
       mkdir_parents (fs w) (Path output_dir) = Raised e →
       trace (download_bilibili_video url output_dir batch (Some "")
                kwargs w).2
       = trace w).
Proof.
  split; [reflexivity|]. split; [apply build_cmd_shape|].
  split; [reflexivity|]. split.
  - intros w fs1 Hmk cmd.
    rewrite (run_after_mkdir _ _ _ _ _ _ _ Hmk). fold cmd.
    destruct (child w cmd (child_env w) fs1) as [e|rc fs2]; simpl.
    + exists []. split; [|by left]. by rewrite ?app_nil_r, <- ?app_assoc.
    + exists [Printed (verdict rc)]. split; [|right; by exists rc].
      by rewrite <- ?app_assoc.
  - intros w e Hmk. by rewrite (run_mkdir_raised _ _ _ _ _ _ _ Hmk).
Qed.

Lemma empty_episodes_as_absent_witness :
  let w := sample_world 0 in
  mkdir_parents (fs w) (Path "downloads")
  = Returned (<[["downloads"] := Dir]> ∅)
  ∧ ∃ report,
      trace (download_bilibili_video "https://example.com/v/1" "downloads"
               false (Some "") [] w).2
      = [ Printed "开始下载: https://example.com/v/1";
          Printed "下载目录: downloads";
          Printed "批量模式: 禁用";
          Printed
            "执行命令: python -m yutto https://example.com/v/1 --dir downloads";
          Spawned
            ["python"; "-m"; "yutto"; "https://example.com/v/1"; "--dir";
             "downloads"]
            (child_env w) ]
        ++ report.
Proof.
  intros w.
  assert (Hmk : mkdir_parents (fs w) (Path "downloads")
                = Returned (<[["downloads"] := Dir]> ∅)) by by vm_compute.
  split; [exact Hmk|].
  destruct (empty_episodes_as_absent "python" "https://example.com/v/1"
              "downloads" false []) as (_ & _ & _ & Hprints & _).
  destruct (Hprints w _ Hmk) as (report & Htrace & _).
  exists report. rewrite Htrace. reflexivity.
Defined.

(** C10: whenever the child is started, the line printed just before it is
    the command, its tokens joined by single spaces behind the label; so a
    [sessdata] value other than [None] can be read in that line as it
    stands. *)
Theorem command_line_printed url output_dir batch episodes kwargs
    (w : World) fs1 :
  mkdir_parents (fs w) (Path output_dir) = Returned fs1 →
  let cmd :=
    build_cmd (sys_executable w) url output_dir batch episodes kwargs in
  let line := "执行命令: " +:+ join " " cmd in
  (∃ before report,
     trace (download_bilibili_video url output_dir batch episodes kwargs w).2
     = trace w ++ before
       ++ [Printed line; Spawned cmd (child_env w)] ++ report
     ∧ spawned before = [] ∧ spawned report = [])
  ∧ (∀ v, dict_lookup kwargs "sessdata" = Some v → v ≠ PyNone →
       substring_of (str v) line).
Proof.
  intros Hmk cmd line. split.
  - destruct (run_trace url output_dir batch episodes kwargs w fs1 Hmk)
      as (report & Htrace & Hreport). fold cmd in Htrace.
    exists ([ Printed ("开始下载: " +:+ url);
              Printed ("下载目录: " +:+ output_dir);
              Printed ("批量模式: " +:+ (if batch then "启用" else "禁用")) ]
            ++ match episodes with
               | Some e => if bool_decide (e = "") then []
                           else [Printed ("选集范围: " +:+ e)]
               | None => []
               end), report.
    split; [|split; [|done]].
    + rewrite Htrace. unfold announce. fold line.
      rewrite <- !app_assoc. reflexivity.
    + rewrite spawned_app.
      destruct episodes as [e|]; [destruct (bool_decide (e = ""))|]; done.
  - intros v Hl Hv. subst line.
    rewrite <- (string_app_nil_r (join " " cmd)).
    apply (substring_of_app (str v) "执行命令: " (join " " cmd) "").
    apply join_substring.
    destruct (mapped_pair_inserted kwargs "sessdata" "--sessdata" v
                param_mapping param_mapping_keys_NoDup) as
      (before & after & Hwith & _); [|done|done|].
    { apply (bool_decide_unpack _). by vm_compute. }
    assert (Hin : str v ∈ flat_map (option_tokens kwargs) param_mapping).
    { rewrite Hwith. apply elem_of_app. right. apply elem_of_app. left.
      apply list_elem_of_further, list_elem_of_here. }
    subst cmd. rewrite build_cmd_shape.
    do 3 (apply elem_of_app; right). apply elem_of_app. by left.
Qed.

Lemma command_line_printed_witness :
  let w := sample_world 0 in
  let kwargs := [("sessdata", PyStr "abc")] in
  mkdir_parents (fs w) (Path "downloads")
  = Returned (<[["downloads"] := Dir]> ∅)
  ∧ dict_lookup kwargs "sessdata" = Some (PyStr "abc")
  ∧ substring_of "abc"
      ("执行命令: " +:+
       join " " (build_cmd "python" "https://example.com/v/1" "downloads"
                   false None kwargs)).
Proof.
  intros w kwargs.
  assert (Hmk : mkdir_parents (fs w) (Path "downloads")
                = Returned (<[["downloads"] := Dir]> ∅)) by by vm_compute.
  split; [exact Hmk|]. split; [reflexivity|].
  destruct (command_line_printed "https://example.com/v/1" "downloads" false
              None kwargs w _ Hmk) as [_ Hsess].
  by apply (Hsess (PyStr "abc")).
Defined.

(** ** Further properties *)

(** *** When the directory cannot be made *)

(** A regular file at the path or above it stops directory creation:
    [FileExistsError] when the path itself is the file,
    [NotADirectoryError] when the file is above it. *)
Lemma mkdir_parents_blocked fs (p q : path) :
  fs_wf fs → q `suffix_of` p → node_at fs q = Some File →
  mkdir_parents fs p
  = Raised (if decide (q = p) then FileExistsError else NotADirectoryError).
Proof.
  intros Hwf. induction p as [|c p IH]; intros Hq Hfile.
  - apply suffix_nil_inv in Hq as ->. by rewrite decide_True.
  - destruct (decide (q = c :: p)) as [->|Hne].
    + cbn [mkdir_parents]. unfold os_mkdir, is_dir. rewrite Hfile.
      by rewrite bool_decide_eq_false_2 by congruence.
    + apply suffix_cons_cases in Hq as [?|Hq]; [done|].
      assert (Hp : node_at fs (c :: p) = None).
      { destruct (node_at fs (c :: p)) as [n|] eqn:Hn; [|done].
        assert (Hdir : node_at fs q = Some Dir).
        { eapply fs_wf_above; [done|exact Hn| |done]. by apply suffix_cons_r. }
        congruence. }
      cbn [mkdir_parents]. unfold os_mkdir at 1. rewrite Hp. simpl.
      destruct (decide (q = p)) as [->|Hqp].
      * rewrite Hfile. unfold is_dir.
        by rewrite bool_decide_eq_false_2 by (rewrite Hp; congruence).
      * assert (Hpar : node_at fs p = None).
        { destruct (node_at fs p) as [n|] eqn:Hn; [|done].
          assert (Hdir : node_at fs q = Some Dir) by by eapply fs_wf_above.
          congruence. }
        by rewrite Hpar, (IH Hq Hfile).
Qed.

(** X1: when a regular file sits at the download directory or above it,
    the call raises ([FileExistsError] for the path itself,
    [NotADirectoryError] for a file above it) and leaves the world as it
    was: nothing is printed and no child is started. *)
Theorem blocked_dir_raises url output_dir batch episodes kwargs
    (w : World) (q : path) :
  fs_wf (fs w) → q `suffix_of` Path output_dir →
  node_at (fs w) q = Some File →
  download_bilibili_video url output_dir batch episodes kwargs w
  = (Raised (if decide (q = Path output_dir)
             then FileExistsError else NotADirectoryError), w).
Proof.
  intros Hwf Hq Hfile. apply run_mkdir_raised.
  by apply mkdir_parents_blocked.
Qed.

Lemma fs_wf_single_file (name : string) : fs_wf {[ [name] := File ]}.
Proof.
  intros p n. unfold node_at at 1.
  destruct (is_anchor p) eqn:Ha.
  - intros _. apply bool_decide_eq_true in Ha as [->| ->]; reflexivity.
  - intros Hl. apply lookup_singleton_Some in Hl as [<- _]. reflexivity.
Qed.

Lemma blocked_dir_raises_witness :
  let w := set_fs {[ ["downloads"] := File ]} (sample_world 0) in
  fs_wf (fs w)
  ∧ ["downloads"] `suffix_of` Path "downloads/collection"
  ∧ node_at (fs w) ["downloads"] = Some File
  ∧ download_bilibili_video "https://example.com/v/1" "downloads/collection"
      false None [] w
    = (Raised NotADirectoryError, w).
Proof.
  intros w.
  assert (Hwf : fs_wf (fs w)) by apply fs_wf_single_file.
  assert (Hq : ["downloads"] `suffix_of` Path "downloads/collection").
  { exists ["collection"]. reflexivity. }
  assert (Hfile : node_at (fs w) ["downloads"] = Some File) by by vm_compute.
  split; [exact Hwf|]. split; [exact Hq|]. split; [exact Hfile|].
  exact (blocked_dir_raises "https://example.com/v/1" "downloads/collection"
           false None [] w ["downloads"] Hwf Hq Hfile).
Defined.

(** *** When the child cannot be started *)

(** X2: when the child cannot be started, its exception leaves the
    function: no report line follows the child in the trace, while the
    announcement has been printed and the directories made for it are
    there to stay. *)
Theorem launch_failure_propagates url output_dir batch episodes kwargs
    (w : World) e :
  let cmd :=
    build_cmd (sys_executable w) url output_dir batch episodes kwargs in
  fs_wf (fs w) → creatable (fs w) (Path output_dir) →
  (∀ fs1, child w cmd (child_env w) fs1 = LaunchError e) →
  ∃ w',
    download_bilibili_video url output_dir batch episodes kwargs w
    = (Raised e, w')
    ∧ trace w' = trace w ++ announce url output_dir batch episodes cmd
                 ++ [Spawned cmd (child_env w)]
    ∧ (∀ q, q `suffix_of` Path output_dir → node_at (fs w') q = Some Dir)
    ∧ (∀ q, ¬ q `suffix_of` Path output_dir →
         node_at (fs w') q = node_at (fs w) q).
Proof.
  intros cmd Hwf Hcr Hfail.
  destruct (mkdir_parents_creates _ _ Hwf Hcr)
    as (fs1 & Hmk & _ & Hdirs & Hsame).
  rewrite (run_after_mkdir _ _ _ _ _ _ _ Hmk). fold cmd. rewrite Hfail.
  eexists. split; [reflexivity|]. simpl. by rewrite <- app_assoc.
Qed.

Lemma launch_failure_propagates_witness :
  let w :=
    mkWorld "python" "/app/src" ∅ ∅ []
      (λ _ _ _, LaunchError FileNotFoundError) in
  fs_wf (fs w) ∧ creatable (fs w) (Path "downloads")
  ∧ ∃ w',
      download_bilibili_video "https://example.com/v/1" "downloads" false
        None [] w = (Raised FileNotFoundError, w')
      ∧ node_at (fs w') ["downloads"] = Some Dir.
Proof.
  intros w.
  assert (Hwf : fs_wf (fs w)) by apply fs_wf_empty.
  assert (Hcr : creatable (fs w) (Path "downloads")) by apply creatable_empty.
  split; [exact Hwf|]. split; [exact Hcr|].
  destruct (launch_failure_propagates "https://example.com/v/1" "downloads"
              false None [] w FileNotFoundError Hwf Hcr (λ _, eq_refl))
    as (w' & Hrun & _ & Hdirs & _).
  exists w'. split; [exact Hrun|]. apply Hdirs. exists []. reflexivity.
Defined.

(** *** What a run leaves alone *)

(** The settings a run reads are the same after it, whatever happened. *)
Lemma run_keeps_settings url output_dir batch episodes kwargs (w : World) :
  let w' :=
    (download_bilibili_video url output_dir batch episodes kwargs w).2 in
  sys_executable w' = sys_executable w
  ∧ src_path w' = src_path w
  ∧ os_environ w' = os_environ w
  ∧ child w' = child w.
Proof.
  intros w'. subst w'.
  destruct (mkdir_parents (fs w) (Path output_dir)) as [fs1|e] eqn:Hmk.
  - rewrite (run_after_mkdir _ _ _ _ _ _ _ Hmk).
    by destruct (child w _ _ fs1).
  - by rewrite (run_mkdir_raised _ _ _ _ _ _ _ Hmk).
Qed.

(** X3: whatever the outcome, a run leaves the interpreter path, the
    source path, the parent's environment and the behaviour of children
    as they were, only adds to the trace, and starts at most one child. *)
Theorem run_frame url output_dir batch episodes kwargs (w : World) :
  let w' :=
    (download_bilibili_video url output_dir batch episodes kwargs w).2 in
  sys_executable w' = sys_executable w
  ∧ src_path w' = src_path w
  ∧ os_environ w' = os_environ w
  ∧ child w' = child w
  ∧ trace w `prefix_of` trace w'
  ∧ length (spawned (trace w')) ≤ S (length (spawned (trace w))).
Proof.
  intros w'.
  destruct (run_keeps_settings url output_dir batch episodes kwargs w)
    as (Hexe & Hsrc & Henv & Hchild).
  do 4 (split; [done|]). subst w'.
  destruct (mkdir_parents (fs w) (Path output_dir)) as [fs1|e] eqn:Hmk.
  - pose proof (run_spawned url output_dir batch episodes kwargs w fs1 Hmk)
      as Hsp.
    rewrite Hsp, length_app. simpl.
    destruct (run_trace url output_dir batch episodes kwargs w fs1 Hmk)
      as (report & -> & _).
    split; [by eexists | lia].
  - rewrite (run_mkdir_raised _ _ _ _ _ _ _ Hmk). simpl.
    split; [done | lia].
Qed.

(** *** One call after another *)

(** X4: a second call made after a first finds the interpreter and the
    parent's environment as the first did, so both children get the same
    environment: the source path is not added to [PYTHONPATH] a second
    time. *)
Theorem consecutive_calls url1 dir1 batch1 episodes1 kwargs1
    url2 dir2 batch2 episodes2 kwargs2 (w : World) fs1 fs2 :
  let w1 :=
    (download_bilibili_video url1 dir1 batch1 episodes1 kwargs1 w).2 in
  mkdir_parents (fs w) (Path dir1) = Returned fs1 →
  mkdir_parents (fs w1) (Path dir2) = Returned fs2 →
  spawned
    (trace (download_bilibili_video url2 dir2 batch2 episodes2 kwargs2 w1).2)
  = spawned (trace w)
    ++ [(build_cmd (sys_executable w) url1 dir1 batch1 episodes1 kwargs1,
         child_env w);
        (build_cmd (sys_executable w) url2 dir2 batch2 episodes2 kwargs2,
         child_env w)].
Proof.
  intros w1 Hmk1 Hmk2.
  rewrite (run_spawned _ _ _ _ _ _ _ Hmk2).
  subst w1. rewrite (run_spawned _ _ _ _ _ _ _ Hmk1).
  destruct (run_keeps_settings url1 dir1 batch1 episodes1 kwargs1 w)
    as (Hexe & Hsrc & Henv & _).
  unfold child_env. rewrite Hexe, Hsrc, Henv. by rewrite <- app_assoc.
Qed.

Lemma consecutive_calls_witness :
  let w := sample_world 1 in
  let w1 :=
    (download_bilibili_video "https://example.com/v/1" "downloads" false
       None [] w).2 in
  mkdir_parents (fs w) (Path "downloads")
  = Returned (<[["downloads"] := Dir]> ∅)
  ∧ mkdir_parents (fs w1) (Path "downloads") = Returned (fs w1)
  ∧ (spawned
       (trace (download_bilibili_video "https://example.com/v/2" "downloads"
                 true None [] w1).2)).*2
    = [child_env w; child_env w].
Proof.
  intros w w1.
  assert (Hmk1 : mkdir_parents (fs w) (Path "downloads")
                 = Returned (<[["downloads"] := Dir]> ∅)) by by vm_compute.
  assert (Hmk2 : mkdir_parents (fs w1) (Path "downloads")
                 = Returned (fs w1)) by by vm_compute.
  split; [exact Hmk1|]. split; [exact Hmk2|]. subst w1.
  rewrite (consecutive_calls "https://example.com/v/1" "downloads" false
             None [] "https://example.com/v/2" "downloads" true None [] w
             _ _ Hmk1 Hmk2).
  reflexivity.
Defined.

(** *** The size of the command *)

Lemma option_tokens_length kwargs (item : string * string) :
  length (option_tokens kwargs item)
  = if supplied kwargs item then 2 else 0.
Proof.
  unfold option_tokens, supplied.
  by destruct (dict_lookup kwargs item.1) as [[]|].
Qed.

Lemma mapped_tokens_length kwargs (items : list (string * string)) :
  length (flat_map (option_tokens kwargs) items)
  = 2 * length (filter (λ item, supplied kwargs item = true) items).
Proof.
  induction items as [|item items IH]; [done|].
  cbn [flat_map]. rewrite length_app, option_tokens_length, IH.
  destruct (supplied kwargs item) eqn:Hs.
  - rewrite filter_cons_True by done. simpl. lia.
  - rewrite filter_cons_False by congruence. lia.
Qed.

(** X5: the command has six tokens for the base invocation, one more for
    the batch flag, two for a non-empty episode selection, two for every
    mapped option bound to something other than [None] and one for the
    overwrite flag: never fewer than 6 and never more than 26. *)
Theorem command_length python_exe url output_dir batch episodes kwargs :
  let cmd := build_cmd python_exe url output_dir batch episodes kwargs in
  length cmd
  = 6 + (if batch then 1 else 0)
    + (if episodes_truthy episodes then 2 else 0)
    + 2 * supplied_count kwargs
    + (if truthy (dict_get kwargs "overwrite" (PyBool false)) then 1 else 0)
  ∧ 6 ≤ length cmd ≤ 26.
Proof.
  intros cmd.
  assert (Hcount : supplied_count kwargs ≤ 8).
  { unfold supplied_count.
    etrans; [apply length_filter|]. by vm_compute. }
  assert (Hlen : length cmd
    = 6 + (if batch then 1 else 0)
      + (if episodes_truthy episodes then 2 else 0)
      + 2 * supplied_count kwargs
      + (if truthy (dict_get kwargs "overwrite" (PyBool false))
         then 1 else 0)).
  { subst cmd. rewrite build_cmd_shape, !length_app, mapped_tokens_length.
    unfold base_tokens, batch_tokens, episodes_tokens, overwrite_tokens,
      episodes_truthy, supplied_count.
    destruct batch, episodes as [e|];
      try destruct (bool_decide (e = ""));
      destruct (truthy _); simpl; lia. }
  split; [exact Hlen|]. rewrite Hlen.
  destruct batch, (episodes_truthy episodes), (truthy _); lia.
Qed.

(** *** Integer options *)

(** X6: an integer given for a mapped option reaches the command as the
    token after its flag, written as a decimal numeral that reads back as
    the same integer. *)
Theorem integer_option_token python_exe url output_dir batch episodes
    kwargs param flag z :
  (param, flag) ∈ param_mapping →
  dict_lookup kwargs param = Some (PyInt z) →
  ∃ before numeral after,
    build_cmd python_exe url output_dir batch episodes kwargs
    = before ++ [flag; numeral] ++ after
    ∧ int_of_str numeral = Some z.
Proof.
  intros Hin Hl.
  destruct (mapped_pair_inserted kwargs param flag (PyInt z) param_mapping
              param_mapping_keys_NoDup Hin Hl)
    as (before & after & Hwith & _); [done|].
  exists (base_tokens python_exe url output_dir ++ batch_tokens batch
          ++ episodes_tokens episodes ++ before),
         (str (PyInt z)), (after ++ overwrite_tokens kwargs).
  split; [|apply str_int_reads_back].
  rewrite build_cmd_shape, Hwith. by rewrite <- !app_assoc.
Qed.

Lemma integer_option_token_witness :
  let kwargs := [("audio_quality", PyInt 30280)] in
  (("audio_quality", "--audio-quality") ∈ param_mapping)
  ∧ dict_lookup kwargs "audio_quality" = Some (PyInt 30280)
  ∧ ∃ before numeral after,
      build_cmd "python" "https://example.com/v/1" "downloads" false None
        kwargs = before ++ ["--audio-quality"; numeral] ++ after
      ∧ int_of_str numeral = Some 30280%Z.
Proof.
  intros kwargs.
  assert (Hin : ("audio_quality", "--audio-quality") ∈ param_mapping).
  { apply (bool_decide_unpack _). by vm_compute. }
  split; [exact Hin|]. split; [reflexivity|].
  exact (integer_option_token "python" "https://example.com/v/1" "downloads"
           false None kwargs "audio_quality" "--audio-quality" 30280
           Hin eq_refl).
Defined.

(** *** Reading the printed command back *)

Lemma split_on_sep c (s cur : string) :
  split_on c (String c s) cur = cur :: split_on c s "".
Proof. simpl. by rewrite Ascii.eqb_refl. Qed.

Lemma split_on_app c (t s cur : string) :
  contains_char c t = false →
  split_on c (t +:+ s) cur = split_on c s (cur +:+ t).
Proof.
  revert cur. induction t as [|a t IH]; intros cur Hfree.
  - by rewrite string_app_nil_r.
  - simpl in Hfree. apply orb_false_iff in Hfree as [Ha Hfree].
    change (String a t +:+ s) with (String a (t +:+ s)).
    cbn [split_on]. rewrite Ha, IH by done.
    rewrite string_app_assoc. reflexivity.
Qed.

(** Splitting a joined list at the separator gives the list back when no
    element holds the separator. *)
Lemma split_on_join c (l : list string) :
  l ≠ [] → (∀ t, t ∈ l → contains_char c t = false) →
  split_on c (join (String c "") l) "" = l.
Proof.
  induction l as [|x l IH]; intros Hne Hfree; [done|].
  assert (Hx : contains_char c x = false) by apply Hfree, list_elem_of_here.
  destruct l as [|y l].
  - rewrite <- (string_app_nil_r (join _ [x])). by rewrite split_on_app.
  - change (join (String c "") (x :: y :: l))
      with (x +:+ String c (join (String c "") (y :: l))).
    rewrite split_on_app, split_on_sep by done. f_equal.
    apply IH; [done|]. intros t Ht. apply Hfree. by apply list_elem_of_further.
Qed.

(** X7: when no token of the command holds a space, the line printed just
    before the child is started splits at its spaces into the label and
    exactly the tokens handed to the child, in order. *)
Theorem printed_command_reads_back url output_dir batch episodes kwargs
    (w : World) fs1 :
  let cmd :=
    build_cmd (sys_executable w) url output_dir batch episodes kwargs in
  mkdir_parents (fs w) (Path output_dir) = Returned fs1 →
  (∀ t, t ∈ cmd → contains_char " " t = false) →
  ∃ before line report,
    trace (download_bilibili_video url output_dir batch episodes kwargs w).2
    = trace w ++ before
      ++ [Printed line; Spawned cmd (child_env w)] ++ report
    ∧ split_on " " line "" = "执行命令:" :: cmd.
Proof.
  intros cmd Hmk Hfree.
  destruct (run_trace url output_dir batch episodes kwargs w fs1 Hmk)
    as (report & Htrace & _). fold cmd in Htrace.
  exists ([ Printed ("开始下载: " +:+ url);
            Printed ("下载目录: " +:+ output_dir);
            Printed ("批量模式: " +:+ (if batch then "启用" else "禁用")) ]
          ++ match episodes with
             | Some e => if bool_decide (e = "") then []
                         else [Printed ("选集范围: " +:+ e)]
             | None => []
             end),
         ("执行命令: " +:+ join " " cmd), report.
  split.
  - rewrite Htrace. unfold announce. rewrite <- !app_assoc. reflexivity.
  - change ("执行命令: " +:+ join " " cmd)
      with ("执行命令:" +:+ String " " (join " " cmd)).
    rewrite split_on_app, split_on_sep by reflexivity. f_equal.
    apply split_on_join; [|done].
    subst cmd. rewrite build_cmd_shape. discriminate.
Qed.

Lemma printed_command_reads_back_witness :
  let w := sample_world 0 in
  let cmd := build_cmd "python" "https://example.com/v/1" "downloads" true
               None [("num_workers", PyInt 8)] in
  mkdir_parents (fs w) (Path "downloads")
  = Returned (<[["downloads"] := Dir]> ∅)
  ∧ (∀ t, t ∈ cmd → contains_char " " t = false)
  ∧ ∃ before line report,
      trace (download_bilibili_video "https://example.com/v/1" "downloads"
               true None [("num_workers", PyInt 8)] w).2
      = trace w ++ before
        ++ [Printed line; Spawned cmd (child_env w)] ++ report
      ∧ split_on " " line "" = "执行命令:" :: cmd.
Proof.
  intros w cmd.
  assert (Hmk : mkdir_parents (fs w) (Path "downloads")
                = Returned (<[["downloads"] := Dir]> ∅)) by by vm_compute.
  assert (Hfree : ∀ t, t ∈ cmd → contains_char " " t = false).
  { intros t Ht. vm_compute in Ht.
    repeat (apply elem_of_cons in Ht as [->|Ht]; [reflexivity|]).
    by apply elem_of_nil in Ht. }
  split; [exact Hmk|]. split; [exact Hfree|].
  exact (printed_command_reads_back "https://example.com/v/1" "downloads"
           true None [("num_workers", PyInt 8)] w _ Hmk Hfree).
Defined.

(** *** Reading the exit status back *)

(** The failure line is never the completion line. *)
Lemma failure_line_not_completion (code : string) :
  "下载失败，返回码: " +:+ code ≠ "下载完成!".
Proof. cbv [String.append]. discriminate. Qed.

(** Different exit statuses make different report lines. *)
Lemma verdict_injective (returncode returncode' : Z) :
  returncode ≠ returncode' → verdict returncode ≠ verdict returncode'.
Proof.
  intros Hne Heq. apply Hne. unfold verdict in Heq.
  destruct (returncode =? 0)%Z eqn:H0, (returncode' =? 0)%Z eqn:H0'.
  - apply Z.eqb_eq in H0, H0'. congruence.
  - symmetry in Heq. by apply failure_line_not_completion in Heq.
  - by apply failure_line_not_completion in Heq.
  - apply String.app_inj in Heq.
    pose proof (str_int_reads_back returncode) as Hr.
    pose proof (str_int_reads_back returncode') as Hr'.
    rewrite Heq in Hr. congruence.
Qed.

(** The last thing in the trace of a run whose child came to an end. *)
Lemma run_last_event url output_dir batch episodes kwargs (w : World)
    fs1 returncode fs2 :
  mkdir_parents (fs w) (Path output_dir) = Returned fs1 →
  child w (build_cmd (sys_executable w) url output_dir batch episodes kwargs)
    (child_env w) fs1 = Exited returncode fs2 →
  last (trace (download_bilibili_video url output_dir batch episodes
                 kwargs w).2)
  = Some (Printed (verdict returncode)).
Proof.
  intros Hmk Hchild. rewrite (run_after_mkdir _ _ _ _ _ _ _ Hmk), Hchild.
  unfold advance. cbn [snd trace]. rewrite app_assoc. apply last_snoc.
Qed.

(** X8: two runs whose children end with different exit statuses finish
    by printing different lines, so the last line a run prints tells which
    status its child ended with. *)
Theorem report_line_tells_status
    url output_dir batch episodes kwargs (w : World) fs1 returncode fs2
    url' output_dir' batch' episodes' kwargs' (w' : World) fs1' returncode'
    fs2' :
  mkdir_parents (fs w) (Path output_dir) = Returned fs1 →
  child w (build_cmd (sys_executable w) url output_dir batch episodes kwargs)
    (child_env w) fs1 = Exited returncode fs2 →
  mkdir_parents (fs w') (Path output_dir') = Returned fs1' →
  child w' (build_cmd (sys_executable w') url' output_dir' batch' episodes'
              kwargs')
    (child_env w') fs1' = Exited returncode' fs2' →
  returncode ≠ returncode' →
  ∃ line line',
    last (trace (download_bilibili_video url output_dir batch episodes
                   kwargs w).2) = Some (Printed line)
    ∧ last (trace (download_bilibili_video url' output_dir' batch' episodes'
                     kwargs' w').2) = Some (Printed line')
    ∧ line ≠ line'.
Proof.
  intros Hmk Hchild Hmk' Hchild' Hne.
  exists (verdict returncode), (verdict returncode').
  split; [by eapply run_last_event|]. split; [by eapply run_last_event|].
  by apply verdict_injective.
Qed.

Lemma report_line_tells_status_witness :
  let w := sample_world 1 in
  let w' := sample_world 2 in
  mkdir_parents (fs w) (Path "downloads")
  = Returned (<[["downloads"] := Dir]> ∅)
  ∧ (1 ≠ 2)%Z
  ∧ ∃ line line',
      last (trace (download_bilibili_video "https://example.com/v/1"
                     "downloads" false None [] w).2) = Some (Printed line)
      ∧ last (trace (download_bilibili_video "https://example.com/v/1"
                       "downloads" false None [] w').2)
        = Some (Printed line')
      ∧ line ≠ line'.
Proof.
  intros w w'.
  assert (Hmk : mkdir_parents (fs w) (Path "downloads")
                = Returned (<[["downloads"] := Dir]> ∅)) by by vm_compute.
  assert (Hne : (1 ≠ 2)%Z) by discriminate.
  split; [exact Hmk|]. split; [exact Hne|].
  exact (report_line_tells_status
           "https://example.com/v/1" "downloads" false None [] w _ 1 _
           "https://example.com/v/1" "downloads" false None [] w' _ 2 _
           Hmk eq_refl Hmk eq_refl Hne).
Defined.

(** *** Running the script *)

(** X9: run as a script in a well-formed file system where no regular
    file is in the way, the module first makes [downloads] and
    [downloads/collection], touching nothing else, and then goes on in the
    file system that has them: it starts one child there, in batch mode,
    with the three options it names rendered in the order of the mapping
    and with neither an episode selection nor the overwrite flag. *)
Theorem main_run (w : World) :
  fs_wf (fs w) → creatable (fs w) ["collection"; "downloads"] →
  let cmd :=
    [sys_executable w; "-m"; "yutto";
     "https://space.bilibili.com/20972760/favlist?fid=1645833860&ftype=create";
     "--dir"; "downloads/collection"; "--batch";
     "--video-quality"; "80"; "--audio-quality"; "30280";
     "--num-workers"; "8"] in
  let lines :=
    [ Printed "开始下载: https://space.bilibili.com/20972760/favlist?fid=1645833860&ftype=create";
      Printed "下载目录: downloads/collection";
      Printed "批量模式: 启用";
      Printed ("执行命令: " +:+ join " " cmd);
      Spawned cmd (child_env w) ] in
  ∃ fs1,
    node_at fs1 ["downloads"] = Some Dir
    ∧ node_at fs1 ["collection"; "downloads"] = Some Dir
    ∧ (∀ q, q ≠ ["downloads"] → q ≠ ["collection"; "downloads"] →
         node_at fs1 q = node_at (fs w) q)
    ∧ main w
      = match child w cmd (child_env w) fs1 with
        | LaunchError e => (Raised e, advance w fs1 lines)
        | Exited returncode fs2 =>
            (Returned tt,
             advance w fs2
               (lines
                ++ [Printed (if (returncode =? 0)%Z then "下载完成!"
                             else "下载失败，返回码: "
                                  +:+ str (PyInt returncode))]))
        end.
Proof.
  intros Hwf Hcr cmd lines.
  destruct (mkdir_parents_creates _ _ Hwf Hcr)
    as (fs1 & Hmk & _ & Hdirs & Hsame).
  exists fs1. split; [|split; [|split]].
  - apply Hdirs. exists ["collection"]. reflexivity.
  - apply Hdirs. exists []. reflexivity.
  - intros q Hq1 Hq2. destruct (decide (q = [])) as [->|Hq0]; [reflexivity|].
    apply Hsame. intros Hsuf.
    apply suffix_cons_cases in Hsuf as [?|Hsuf]; [done|].
    apply suffix_cons_cases in Hsuf as [?|Hsuf]; [done|].
    by apply suffix_nil_inv in Hsuf.
  - unfold main.
    rewrite (run_after_mkdir _ "downloads/collection" _ _ _ w fs1 Hmk).
    reflexivity.
Qed.

Lemma main_run_witness :
  let w := sample_world 0 in
  fs_wf (fs w) ∧ creatable (fs w) ["collection"; "downloads"]
  ∧ (main w).1 = Returned tt
  ∧ node_at (fs (main w).2) ["collection"; "downloads"] = Some Dir
  ∧ length (spawned (trace (main w).2)) = 1.
Proof.
  intros w.
  assert (Hwf : fs_wf (fs w)) by apply fs_wf_empty.
  assert (Hcr : creatable (fs w) ["collection"; "downloads"])
    by apply creatable_empty.
  split; [exact Hwf|]. split; [exact Hcr|].
  destruct (main_run w Hwf Hcr) as (fs1 & _ & Hdir & _ & Hrun).
  rewrite Hrun. simpl. split; [reflexivity|]. split; [exact Hdir|].
  reflexivity.
Defined.
